(** * Mission Control dashboard: the client-side reconciliation core

    A shallow embedding of [app/components/DashboardClient.tsx]: the stage
    mapping, the identity assignment ([guessNickname], [withNicknames]), the
    event classifier ([isStatusKind], [classifyEvent], [feedCounts]) and the
    handlers that write the component state ([moveTask], [moveLead],
    [addLead], [addTask], the mission-events effect).

    Conventions of the embedding.
    - A JavaScript string is a [string]: a sequence of code units below 256
      (the Latin-1 block of UTF-16).  [toLowerCase] and [trim] are the
      JavaScript functions restricted to that block.
    - A number that holds a time in milliseconds is a [Z].
    - An optional field ([label?: string]) is an [option]; the truthiness
      tests of the source ([!x], [x || y]) are written out.
    - [Date.now()] and [Math.random().toString(16)] are inputs of the
      function that calls them.
    - The remote store never throws: each call resolves to a reply that is
      either data or an error, as the source expects ([if (error) throw]). *)

From Stdlib Require Import ZArith Ascii String List Permutation Sorted.
From stdpp Require Import base strings list gmap.

Local Open Scope string_scope.
Local Open Scope Z_scope.

(** ** JavaScript string primitives *)

Module JS.

(** [c.toLowerCase()] for one code unit below 256: the letters A-Z and the
    Latin-1 capitals U+00C0..U+00DE (the sign U+00D7 apart) move up by 32. *)
Definition lowerChar (c : ascii) : ascii :=
  let n := N_of_ascii c in
  if ((65 <=? n) && (n <=? 90) || (192 <=? n) && (n <=? 222) && negb (n =? 215))%N
  then ascii_of_N (n + 32) else c.

Fixpoint toLowerCase (s : string) : string :=
  match s with
  | EmptyString => EmptyString
  | String c r => String (lowerChar c) (toLowerCase r)
  end.

(** [s.startsWith(p)] *)
Definition startsWith (s p : string) : bool := String.prefix p s.

(** [s.endsWith(p)] *)
Definition endsWith (s p : string) : bool :=
  String.prefix (String.rev p) (String.rev s).

(** [hay.includes(needle)] *)
Fixpoint includes (hay needle : string) : bool :=
  String.prefix needle hay ||
  match hay with
  | EmptyString => false
  | String _ r => includes r needle
  end.

(** White space and line terminators below 256: TAB, LF, VT, FF, CR, SP and
    the no-break space U+00A0. *)
Definition isWhite (c : ascii) : bool :=
  let n := N_of_ascii c in
  ((9 <=? n) && (n <=? 13) || (n =? 32) || (n =? 160))%N.

Fixpoint trimStart (s : string) : string :=
  match s with
  | EmptyString => EmptyString
  | String c r => if isWhite c then trimStart r else s
  end.

(** [s.trim()] *)
Definition trim (s : string) : string :=
  String.rev (trimStart (String.rev (trimStart s))).

(** [s.slice(n)] for [n >= 0] *)
Fixpoint slice (n : nat) (s : string) : string :=
  match n, s with
  | O, _ => s
  | S _, EmptyString => EmptyString
  | S m, String _ r => slice m r
  end.

(** [s.split(sep)] for a separator of one code unit; the empty string splits
    into one empty piece. *)
Fixpoint split (sep : ascii) (s : string) : list string :=
  match s with
  | EmptyString => [EmptyString]
  | String c r =>
      if Ascii.eqb c sep then EmptyString :: split sep r
      else match split sep r with
           | [] => [String c EmptyString]
           | p :: ps => String c p :: ps
           end
  end.

(** Truthiness of a string: [!!s]. *)
Definition truthy (s : string) : bool := negb (String.eqb s "").

(** Truthiness of an optional string ([undefined], [null] and the empty
    string are falsy). *)
Definition truthyOpt (o : option string) : bool :=
  match o with Some s => truthy s | None => false end.

(** [o || d] *)
Definition orElse (o : option string) (d : string) : string :=
  match o with Some s => if truthy s then s else d | None => d end.

(** [s || undefined] *)
Definition orUndefined (s : string) : option string :=
  if truthy s then Some s else None.

Definition hexDigit (d : N) : ascii :=
  ascii_of_N (if (d <? 10)%N then 48 + d else 87 + d).

(** The hexadecimal digits of [n], most significant first, appended to
    [acc]; [fuel] bounds the number of digits. *)
Fixpoint hexDigits (fuel : nat) (n : N) (acc : string) : string :=
  match fuel with
  | O => acc
  | S f =>
      let acc' := String (hexDigit (n mod 16)) acc in
      if (n <? 16)%N then acc' else hexDigits f (n / 16) acc'
  end.

(** [n.toString(16)] for an integer [n]. *)
Definition toString16 (n : Z) : string :=
  let m := Z.to_N (Z.abs n) in
  let digits := hexDigits (S (N.to_nat (N.log2 m))) m "" in
  if n <? 0 then String "-" digits else digits.

End JS.

(** ** Stages and statuses *)

Inductive LeadStage := lead | qualified | meeting | proposal | won | lost.

Inductive TaskStage := inbox | assigned | in_progress | review | done.

Inductive MissionStatus := INBOX | ASSIGNED | IN_PROGRESS | REVIEW | DONE.

Definition taskStageToMissionStatus (stage : TaskStage) : MissionStatus :=
  match stage with
  | inbox => INBOX
  | assigned => ASSIGNED
  | in_progress => IN_PROGRESS
  | review => REVIEW
  | done => DONE
  end.

Definition missionStatusToTaskStage (status : MissionStatus) : TaskStage :=
  match status with
  | INBOX => inbox
  | ASSIGNED => assigned
  | IN_PROGRESS => in_progress
  | REVIEW => review
  | DONE => done
  end.

Definition TASK_STAGES : list TaskStage :=
  [inbox; assigned; in_progress; review; done].

Definition MISSION_STATUSES : list MissionStatus :=
  [INBOX; ASSIGNED; IN_PROGRESS; REVIEW; DONE].

(** The status as the string the remote store holds. *)
Definition statusName (s : MissionStatus) : string :=
  match s with
  | INBOX => "INBOX"
  | ASSIGNED => "ASSIGNED"
  | IN_PROGRESS => "IN_PROGRESS"
  | REVIEW => "REVIEW"
  | DONE => "DONE"
  end.

#[global] Instance LeadStage_eq_dec : EqDecision LeadStage.
Proof. solve_decision. Defined.

#[global] Instance TaskStage_eq_dec : EqDecision TaskStage.
Proof. solve_decision. Defined.

#[global] Instance MissionStatus_eq_dec : EqDecision MissionStatus.
Proof. solve_decision. Defined.


(** ** Sessions and the identity assignment *)

Module Session.
Record t := mk {
  key : string;
  sessionId : string;
  label : option string;
  displayName : option string;
  updatedAt : option Z;
  transcriptPath : option string;
  model : option string
}.
End Session.

(** A session with its nickname: [SessionItem & { nickname: string }]. *)
Record Named := mkNamed { session : Session.t; nickname : string }.

Definition AGENT_NICKNAMES : list string :=
  ["Orbit"; "Forge"; "Pulse"; "Scout"; "Ledger"].

(** [s.updatedAt || 0] *)
Definition recency (s : Session.t) : Z :=
  match Session.updatedAt s with Some u => u | None => 0 end.

(** One step of the stable sort under the comparator
    [(a, b) => (b.updatedAt || 0) - (a.updatedAt || 0)]: [x], which stood
    before every element of [l], stays before the elements that are not
    more recent than it. *)
Fixpoint insertByRecency (x : Session.t) (l : list Session.t) : list Session.t :=
  match l with
  | [] => [x]
  | y :: l' =>
      if recency y <=? recency x then x :: y :: l'
      else y :: insertByRecency x l'
  end.

(** The order the comparator asks for: [a] may stand before [b]. *)
Definition notOlder (a b : Session.t) : Prop := recency b <= recency a.

(** [[...sessions].sort(...)]: most recent first, ties in the given order. *)
Definition sortByRecency (sessions : list Session.t) : list Session.t :=
  foldr insertByRecency [] sessions.

Section Identity.

(** The pool; the source fixes it to [AGENT_NICKNAMES]. *)
Variable pool : list string.

(** The text [guessNickname] searches. *)
Definition haystack (s : Session.t) : string :=
  JS.toLowerCase
    (JS.orElse (Session.displayName s) "" +:+ " " +:+
     JS.orElse (Session.label s) "" +:+ " " +:+ Session.sessionId s).

Definition guessNicknameIn (s : Session.t) : option string :=
  List.find (fun n => JS.includes (haystack s) (JS.toLowerCase n)) pool.

(** [pool[i % pool.length]]; [None] is [undefined] (an empty pool). *)
Definition poolAt (i : nat) : option string :=
  pool !! (i mod length pool)%nat.

(** Loop 1, one session: [if (g) map.set(s.key, g)].  A value of the map
    is [None] when the source stores [undefined]. *)
Definition explicitStep (m : gmap string (option string)) (s : Session.t)
  : gmap string (option string) :=
  match guessNicknameIn s with
  | Some g => if JS.truthy g then <[Session.key s := Some g]> m else m
  | None => m
  end.

(** Loop 2, one session: skip a bound key, else bind [pool[i % k]] and
    advance the counter. *)
Definition recencyStep (acc : gmap string (option string) * nat) (s : Session.t)
  : gmap string (option string) * nat :=
  let '(m, i) := acc in
  match m !! Session.key s with
  | Some _ => (m, i)
  | None => (<[Session.key s := poolAt i]> m, S i)
  end.

(** The map after both loops. *)
Definition bindingIn (sessions : list Session.t) : gmap string (option string) :=
  let m := fold_left explicitStep sessions ∅ in
  fst (fold_left recencyStep (sortByRecency sessions) (m, O)).

(** [map.get(key) || "Agent"] *)
Definition nicknameOf (m : gmap string (option string)) (k : string) : string :=
  match m !! k with
  | Some (Some n) => if JS.truthy n then n else "Agent"
  | _ => "Agent"
  end.

(** Every value of the map is a name of the pool. *)
Definition poolValued (m : gmap string (option string)) : Prop :=
  forall k v, m !! k = Some v -> exists g, v = Some g /\ g ∈ pool.

Definition withNicknamesIn (sessions : list Session.t) : list Named :=
  let m := bindingIn sessions in
  List.map (fun s => mkNamed s (nicknameOf m (Session.key s))) sessions.

End Identity.

Definition guessNickname : Session.t -> option string :=
  guessNicknameIn AGENT_NICKNAMES.

Definition withNicknames : list Session.t -> list Named :=
  withNicknamesIn AGENT_NICKNAMES.

(** The binding as the list of (key, nickname) pairs, in session order. *)
Definition bindingOf (named : list Named) : list (string * string) :=
  List.map (fun n => (Session.key (session n), nickname n)) named.

(** ** The live feed: events, classifier, counts *)

Record TranscriptEvent {Raw : Type} := mkEvent {
  ts : option Z;
  kind : string;
  text : option string;
  tool : option string;
  raw : Raw
}.
Arguments TranscriptEvent : clear implicits.

Inductive Category := tools | messages | decisions | docs | status | other.

#[global] Instance Category_eq_dec : EqDecision Category.
Proof. solve_decision. Defined.

Definition isStatusKind (kind : string) : bool :=
  let k := JS.toLowerCase kind in
  String.eqb k "session" ||
  String.eqb k "status" ||
  JS.endsWith k "_change" ||
  JS.startsWith k "model_" ||
  JS.startsWith k "thinking_".

Definition classifyEvent {Raw} (ev : TranscriptEvent Raw) : Category :=
  let kind := JS.toLowerCase (kind ev) in
  let hasTool := JS.truthyOpt (tool ev) in
  if hasTool || String.eqb kind "tool" || String.eqb kind "tool_call" then tools
  else if String.eqb kind "message" then messages
  else if JS.includes kind "decision" then decisions
  else if JS.includes kind "doc" then docs
  else if isStatusKind kind then status
  else other.

(** The rule table of the classifier as the specification words it: each
    condition on the lower-cased kind and the tool reference, in order. *)
Definition precedence {Raw} : list ((TranscriptEvent Raw -> bool) * Category) :=
  [ (fun ev => JS.truthyOpt (tool ev) ||
               String.eqb (JS.toLowerCase (kind ev)) "tool" ||
               String.eqb (JS.toLowerCase (kind ev)) "tool_call", tools);
    (fun ev => String.eqb (JS.toLowerCase (kind ev)) "message", messages);
    (fun ev => JS.includes (JS.toLowerCase (kind ev)) "decision", decisions);
    (fun ev => JS.includes (JS.toLowerCase (kind ev)) "doc", docs);
    (fun ev => let k := JS.toLowerCase (kind ev) in
               String.eqb k "session" || String.eqb k "status" ||
               JS.endsWith k "_change" ||
               JS.startsWith k "model_" || JS.startsWith k "thinking_", status) ].

(** The first rule of the table that fires decides; none gives [other]. *)
Fixpoint firstMatch {Raw} (rules : list ((TranscriptEvent Raw -> bool) * Category))
  (ev : TranscriptEvent Raw) : Category :=
  match rules with
  | [] => other
  | (test, c) :: rest => if test ev then c else firstMatch rest ev
  end.

Module Counts.
Record t := mk {
  all : nat; tools : nat; messages : nat; decisions : nat; docs : nat; status : nat
}.
End Counts.

(** The body of the counting loop for one event. *)
Definition countStep {Raw} (c : Counts.t) (ev : TranscriptEvent Raw) : Counts.t :=
  let '(Counts.mk a t m d o s) := c in
  match classifyEvent ev with
  | tools => Counts.mk a (S t) m d o s
  | messages => Counts.mk a t (S m) d o s
  | decisions => Counts.mk a t m (S d) o s
  | docs => Counts.mk a t m d (S o) s
  | status => Counts.mk a t m d o (S s)
  | other => c
  end.

Definition feedCounts {Raw} (events : list (TranscriptEvent Raw)) : Counts.t :=
  fold_left countStep events (Counts.mk (length events) 0 0 0 0 0).

(** [events.filter((ev) => classifyEvent(ev) === feedFilter)] *)
Definition filteredBy {Raw} (c : Category) (events : list (TranscriptEvent Raw))
  : list (TranscriptEvent Raw) :=
  List.filter (fun ev => bool_decide (classifyEvent ev = c)) events.

(** The number of events of a category. *)
Definition countOf {Raw} (c : Category) (events : list (TranscriptEvent Raw)) : nat :=
  length (filteredBy c events).

(** ** Tasks, leads and the two entry forms *)

Module Task.
Record t := mk {
  id : string;
  title : string;
  desc : option string;
  stage : TaskStage;
  tags : option (list string);
  assignee : option string;
  updatedAt : Z
}.
End Task.

Module Lead.
Record t := mk {
  id : string;
  name : string;
  company : string;
  role : option string;
  stage : LeadStage;
  value : option string;
  nextStep : option string;
  updatedAt : Z
}.
End Lead.

Module LeadForm.
Record t := mk {
  name : string; company : string; role : string; value : string; nextStep : string
}.
Definition empty : t := mk "" "" "" "" "".
End LeadForm.

Module TaskForm.
Record t := mk { title : string; desc : string; assignee : string; tags : string }.
Definition empty : t := mk "" "" "" "".
End TaskForm.

(** [Math.random().toString(16).slice(2) + Date.now().toString(16)], from
    the text [rnd] of the random number and the clock [now]. *)
Definition uid (rnd : string) (now : Z) : string :=
  JS.slice 2 rnd +:+ JS.toString16 now.

(** ** The remote store *)

(** What the host gives and the component does not look into: the JSON
    payload of an event row and the parsing of a date. *)
Class Host := {
  Payload : Type;
  (** the text of [payload.f] when that field is truthy *)
  payloadField : Payload -> string -> option string;
  JSON_stringify : Payload -> string;
  (** [new Date(s).getTime()] *)
  Date_getTime : string -> Z
}.

(** A value caught by [catch (e)]: whether [e instanceof Error], its
    [message] and [String(e)]. *)
Record RemoteError := mkError {
  isError : bool; message : string; asString : string
}.

(** [e instanceof Error ? e.message : fallback] *)
Definition errorMessage (e : RemoteError) (fallback : string) : string :=
  if isError e then message e else fallback.

(** [{ data, error }] *)
Inductive Reply (A : Type) :=
| Ok (data : A)
| Err (error : RemoteError).
Arguments Ok {A} data.
Arguments Err {A} error.

Module MissionRow.
Record t := mk {
  id : string;
  title : string;
  description : option string;
  tags : option (list string);
  status : MissionStatus;
  updated_at : option string;
  created_at : option string
}.
End MissionRow.

Section Dashboard.

Context {host : Host}.

Record EventRow := mkEventRow {
  created_at : option string;
  type_ : option string;
  payload : option Payload
}.

(** The calls the handlers issue, indexed by the type of their data. *)
Inductive RemoteCall : Type -> Type :=
| UpdateMissionStatus (id : string) (st : MissionStatus) : RemoteCall unit
| InsertMission (workspace_id title : string) (description : option string)
    (tags : list string) (st : MissionStatus) (created_by : string)
  : RemoteCall MissionRow.t
| InsertEvent (workspace_id type_name mission_id : string)
    (actor_profile_id : option string) (payloadKey payloadValue : string)
  : RemoteCall unit
| SelectEvents (workspace_id : string) (limit : nat) : RemoteCall (list EventRow).

Inductive Issued : Type :=
| issued : forall A : Type, RemoteCall A -> Issued.
Arguments issued {A} c.

(** ** The component state *)

Record State := mkState {
  tasks : list Task.t;
  leads : list Lead.t;
  newLead : LeadForm.t;
  newTask : TaskForm.t;
  workspaceId : option string;
  profileId : option string;
  dbError : string;
  events : list (TranscriptEvent EventRow);
  eventsError : string;
  (** the run of the mission-events effect whose [alive] flag is still true *)
  feedScope : nat
}.

Definition setTasks (f : list Task.t -> list Task.t) (s : State) : State :=
  mkState (f (tasks s)) (leads s) (newLead s) (newTask s) (workspaceId s)
    (profileId s) (dbError s) (events s) (eventsError s) (feedScope s).

Definition setLeads (f : list Lead.t -> list Lead.t) (s : State) : State :=
  mkState (tasks s) (f (leads s)) (newLead s) (newTask s) (workspaceId s)
    (profileId s) (dbError s) (events s) (eventsError s) (feedScope s).

Definition setNewLead (v : LeadForm.t) (s : State) : State :=
  mkState (tasks s) (leads s) v (newTask s) (workspaceId s)
    (profileId s) (dbError s) (events s) (eventsError s) (feedScope s).

Definition setNewTask (v : TaskForm.t) (s : State) : State :=
  mkState (tasks s) (leads s) (newLead s) v (workspaceId s)
    (profileId s) (dbError s) (events s) (eventsError s) (feedScope s).

Definition setDbError (v : string) (s : State) : State :=
  mkState (tasks s) (leads s) (newLead s) (newTask s) (workspaceId s)
    (profileId s) v (events s) (eventsError s) (feedScope s).

Definition setEvents (v : list (TranscriptEvent EventRow)) (s : State) : State :=
  mkState (tasks s) (leads s) (newLead s) (newTask s) (workspaceId s)
    (profileId s) (dbError s) v (eventsError s) (feedScope s).

Definition setEventsError (v : string) (s : State) : State :=
  mkState (tasks s) (leads s) (newLead s) (newTask s) (workspaceId s)
    (profileId s) (dbError s) (events s) v (feedScope s).

(** The cleanup of the mission-events effect ([alive = false]) followed by
    its next run, or an unmount: the earlier run is no longer the live one. *)
Definition newFeedScope (s : State) : State :=
  mkState (tasks s) (leads s) (newLead s) (newTask s) (workspaceId s)
    (profileId s) (dbError s) (events s) (eventsError s) (S (feedScope s)).

(** ** Handlers

    A handler runs on the current state until it returns or awaits a remote
    call; the continuation of an [await] takes the reply and the state of
    the component at that later moment. *)
Inductive Async : Type :=
| Ret (st : State)
| Call : forall A : Type,
    State -> RemoteCall A -> (Reply A -> State -> Async) -> Async.
Arguments Call {A} st c k.

(** A store answers each call. *)
Definition Store : Type := forall A, RemoteCall A -> Reply A.

(** A handler run to its end with nothing else touching the state while it
    waits: the final state and the calls it issued, in order. *)
Fixpoint run (store : Store) (a : Async) : State * list Issued :=
  match a with
  | Ret st => (st, [])
  | Call st c k =>
      let '(st', cs) := run store (k (store _ c) st) in (st', issued c :: cs)
  end.

(** [workspaceId] or [profileId] when truthy. *)
Definition present (o : option string) : option string :=
  match o with
  | Some s => if JS.truthy s then Some s else None
  | None => None
  end.

(** [{ ...t, stage, updatedAt: Date.now() }] *)
Definition restageTask (stage : TaskStage) (now : Z) (t : Task.t) : Task.t :=
  Task.mk (Task.id t) (Task.title t) (Task.desc t) stage (Task.tags t)
    (Task.assignee t) now.

Definition moveTask (now : Z) (id : string) (stage : TaskStage) (st : State) : Async :=
  let prevTasks := tasks st in
  let st1 :=
    setTasks (List.map (fun t =>
      if String.eqb (Task.id t) id then restageTask stage now t else t)) st in
  match present (workspaceId st) with
  | None => Ret st1
  | Some ws =>
      let status := taskStageToMissionStatus stage in
      Call st1 (UpdateMissionStatus id status) (fun r st2 =>
        match r with
        | Ok _ =>
            Call st2
              (InsertEvent ws "STATUS_CHANGED" id (profileId st) "status"
                 (statusName status))
              (fun _ st3 => Ret st3)
        | Err e =>
            Ret (setTasks (fun _ => prevTasks)
                   (setDbError (errorMessage e "Failed to update mission") st2))
        end)
  end.

(** [{ ...l, stage, updatedAt: Date.now() }] *)
Definition restageLead (stage : LeadStage) (now : Z) (l : Lead.t) : Lead.t :=
  Lead.mk (Lead.id l) (Lead.name l) (Lead.company l) (Lead.role l) stage
    (Lead.value l) (Lead.nextStep l) now.

Definition moveLead (now : Z) (id : string) (stage : LeadStage) (st : State) : Async :=
  Ret (setLeads (List.map (fun l =>
         if String.eqb (Lead.id l) id then restageLead stage now l else l)) st).

(** [rnd] and [tUid] are what [uid()] reads, [now] is [Date.now()] of the
    [updatedAt] field. *)
Definition addLead (rnd : string) (tUid now : Z) (st : State) : Async :=
  let name := JS.trim (LeadForm.name (newLead st)) in
  let company := JS.trim (LeadForm.company (newLead st)) in
  if negb (JS.truthy name) || negb (JS.truthy company) then Ret st
  else
    let fresh :=
      Lead.mk (uid rnd tUid) name company
        (JS.orUndefined (JS.trim (LeadForm.role (newLead st))))
        lead
        (JS.orUndefined (JS.trim (LeadForm.value (newLead st))))
        (JS.orUndefined (JS.trim (LeadForm.nextStep (newLead st))))
        now in
    Ret (setNewLead LeadForm.empty (setLeads (fun prev => fresh :: prev) st)).

(** [newTask.tags.split(",").map((t) => t.trim()).filter(Boolean)] *)
Definition parseTags (s : string) : list string :=
  List.filter JS.truthy (List.map JS.trim (JS.split "," s)).

(** [x || undefined] for a field that may be [null]. *)
Definition optOrUndefined (o : option string) : option string :=
  match o with Some s => JS.orUndefined s | None => None end.

(** [new Date(data.updated_at || data.created_at || Date.now()).getTime()] *)
Definition rowTime (row : MissionRow.t) (now : Z) : Z :=
  match optOrUndefined (MissionRow.updated_at row) with
  | Some u => Date_getTime u
  | None =>
      match optOrUndefined (MissionRow.created_at row) with
      | Some c => Date_getTime c
      | None => now
      end
  end.

(** The task of the local-only path. *)
Definition localTask (rnd : string) (tUid now : Z) (form : TaskForm.t) : Task.t :=
  let tags := parseTags (TaskForm.tags form) in
  Task.mk (uid rnd tUid) (JS.trim (TaskForm.title form))
    (JS.orUndefined (JS.trim (TaskForm.desc form)))
    inbox
    (match tags with [] => None | _ => Some tags end)
    (JS.orUndefined (JS.trim (TaskForm.assignee form)))
    now.

(** The task built from the row the remote insert returns. *)
Definition remoteTask (now : Z) (form : TaskForm.t) (data : MissionRow.t) : Task.t :=
  Task.mk (MissionRow.id data) (MissionRow.title data)
    (optOrUndefined (MissionRow.description data))
    inbox
    (MissionRow.tags data)
    (JS.orUndefined (JS.trim (TaskForm.assignee form)))
    (rowTime data now).

(** [rnd] and [tUid] are what [uid()] reads; [now] is the [Date.now()] of
    the path taken. *)
Definition addTask (rnd : string) (tUid now : Z) (st : State) : Async :=
  let form := newTask st in
  let title := JS.trim (TaskForm.title form) in
  if negb (JS.truthy title) then Ret st
  else
    let tags := parseTags (TaskForm.tags form) in
    let localOnly (s : State) : Async :=
      Ret (setNewTask TaskForm.empty
             (setTasks (fun prev => localTask rnd tUid now form :: prev) s)) in
    match present (workspaceId st), present (profileId st) with
    | Some ws, Some pid =>
        Call st
          (InsertMission ws title (JS.orUndefined (JS.trim (TaskForm.desc form)))
             tags INBOX pid)
          (fun r st1 =>
             match r with
             | Ok data =>
                 Call (setTasks (fun prev => remoteTask now form data :: prev) st1)
                   (InsertEvent ws "MISSION_CREATED" (MissionRow.id data)
                      (profileId st) "title" title)
                   (fun _ st2 => Ret (setNewTask TaskForm.empty st2))
             | Err e =>
                 localOnly (setDbError (errorMessage e "Failed to add mission") st1)
             end)
    | _, _ => localOnly st
    end.

(** The arrow of the second text is outside the block of code units the
    string functions work on; no function of the component inspects it. *)
Definition fmtMissionEvent (type : string) (payload : option Payload) : string :=
  if String.eqb type "MISSION_CREATED" then
    "Created mission: " +:+
      default "(untitled)" (p ← payload; payloadField p "title")
  else if String.eqb type "STATUS_CHANGED" then
    "Status changed → " +:+
      default "(unknown)" (p ← payload; payloadField p "status")
  else
    match payload with
    | Some p => type +:+ ": " +:+ JSON_stringify p
    | None => type
    end.

(** One fetched row as a feed item. *)
Definition eventOfRow (row : EventRow) : TranscriptEvent EventRow :=
  let type := JS.orElse (type_ row) "event" in
  mkEvent EventRow
    (Date_getTime <$> optOrUndefined (created_at row))
    type
    (Some (fmtMissionEvent type (payload row)))
    None
    row.

(** [alive], read by the run [me] of the effect at the state [st]. *)
Definition alive (me : nat) (st : State) : bool := Nat.eqb (feedScope st) me.

(** One poll of the run [me] of the effect, for the workspace [ws]. *)
Definition tickMissionEvents (ws : string) (me : nat) (st : State) : Async :=
  Call (setEventsError "" st) (SelectEvents ws 100) (fun r st1 =>
    match r with
    | Ok rows =>
        if alive me st1 then Ret (setEvents (List.map eventOfRow rows) st1)
        else Ret st1
    | Err e =>
        if alive me st1
        then Ret (setEventsError (errorMessage e (asString e)) (setEvents [] st1))
        else Ret st1
    end).

(** The body of the mission-events effect up to its first poll; it runs
    when the component mounts and when [workspaceId] or the interval
    changes, after the cleanup of its previous run. *)
Definition missionEventsEffect (st0 : State) : Async :=
  let st := newFeedScope st0 in
  match present (workspaceId st) with
  | None => Ret (setEventsError "Waiting for workspace..." (setEvents [] st))
  | Some ws => tickMissionEvents ws (feedScope st) st
  end.

(** [setInterval(tickMissionEvents, Math.max(2000, refreshMs))] *)
Definition feedInterval (refreshMs : Z) : Z := Z.max 2000 refreshMs.

End Dashboard.

Arguments Ret {host} st.
Arguments Call {host A} st c k.
Arguments issued {host A} c.

(** A host with text payloads, for closed examples. *)
Definition textHost : Host :=
  {| Payload := string;
     payloadField := fun _ _ => None;
     JSON_stringify := fun p => p;
     Date_getTime := fun _ => 0 |}.

(** ** Inputs of the scenarios *)

Definition demoError : RemoteError :=
  mkError true "permission denied" "Error: permission denied".

(** A store that refuses every call. *)
Definition failingStore : @Store textHost := fun A _ => Err demoError.

Definition demoTask : Task.t :=
  Task.mk "m1" "Draft posts" None inbox None (Some "Forge") 5.

Definition demoLead : Lead.t :=
  Lead.mk "l1" "Asha" "Acme" None lead None None 3.

Definition demoEvent : TranscriptEvent (@EventRow textHost) :=
  mkEvent _ (Some 7) "STATUS_CHANGED" (Some "Status changed") None
    (mkEventRow (Some "2026-01-01") (Some "STATUS_CHANGED") None).

(** A component with a workspace, one task, one lead, one feed item and
    both forms filled in. *)
Definition demoState : @State textHost :=
  mkState [demoTask] [demoLead]
    (LeadForm.mk " Ravi " "Orange" "" " 5L " "")
    (TaskForm.mk " Call back " "" "Scout" "sales, ,followup")
    (Some "w") (Some "u") "" [demoEvent] "" 1.

(** The component at the first run of the mission-events effect. *)
Definition firstRunState : @State textHost :=
  mkState [demoTask] [demoLead] LeadForm.empty TaskForm.empty
    (Some "w") (Some "u") "" [] "" 0.

(** The same component before the workspace is resolved. *)
Definition offlineState : @State textHost :=
  mkState [demoTask] [demoLead]
    (LeadForm.mk " Ravi " "Orange" "" " 5L " "")
    (TaskForm.mk " Call back " "" "Scout" "sales, ,followup")
    None None "" [demoEvent] "" 1.

(** A component, not yet in a workspace, that already holds the task whose
    id [uid()] yields when [Math.random()] is 0.5 at the clock
    1700000000000. *)
Definition collisionState : @State textHost :=
  mkState [Task.mk "818bcfe56800" "Earlier" None inbox None None 1700000000000]
    [] LeadForm.empty (TaskForm.mk "Call back" "" "" "")
    None None "" [] "" 0.

(** [{key:"a", updatedAt:100, label:"Orbit handles X"}] *)
Definition scenarioA : Session.t :=
  Session.mk "a" "" (Some "Orbit handles X") None (Some 100) None None.

(** [{key:"b", updatedAt:200, label:"unlabeled"}] *)
Definition scenarioB : Session.t :=
  Session.mk "b" "" (Some "unlabeled") None (Some 200) None None.

(** Two entries of a session list under one key, naming different agents. *)
Definition sharedKey1 : Session.t :=
  Session.mk "k" "s1" (Some "Orbit") None (Some 200) None None.

Definition sharedKey2 : Session.t :=
  Session.mk "k" "s2" (Some "Forge") None (Some 100) None None.

(** ** The rest of the feed: the filtered view, titles and bodies *)

(** The filter of the feed: ["all"] or one of five categories. *)
Inductive FeedFilter :=
| f_all | f_tools | f_messages | f_decisions | f_docs | f_status.

Definition filterName (f : FeedFilter) : string :=
  match f with
  | f_all => "all"
  | f_tools => "tools"
  | f_messages => "messages"
  | f_decisions => "decisions"
  | f_docs => "docs"
  | f_status => "status"
  end.

(** The string [classifyEvent] returns. *)
Definition categoryName (c : Category) : string :=
  match c with
  | tools => "tools"
  | messages => "messages"
  | decisions => "decisions"
  | docs => "docs"
  | status => "status"
  | other => "other"
  end.

Definition filteredEvents {Raw} (feedFilter : FeedFilter)
  (events : list (TranscriptEvent Raw)) : list (TranscriptEvent Raw) :=
  match feedFilter with
  | f_all => events
  | _ =>
      List.filter
        (fun ev => String.eqb (categoryName (classifyEvent ev)) (filterName feedFilter))
        events
  end.

(** The number a filter button shows beside its label. *)
Definition pillCount (f : FeedFilter) (c : Counts.t) : nat :=
  match f with
  | f_all => Counts.all c
  | f_tools => Counts.tools c
  | f_messages => Counts.messages c
  | f_decisions => Counts.decisions c
  | f_docs => Counts.docs c
  | f_status => Counts.status c
  end.

(** [s.replaceAll(a, b)] for one code unit each. *)
Fixpoint replaceAll (s : string) (a b : ascii) : string :=
  match s with
  | EmptyString => EmptyString
  | String c r => String (if Ascii.eqb c a then b else c) (replaceAll r a b)
  end.

(** The middle dot U+00B7 of the tool title. *)
Definition middleDot : ascii := "183"%char.

Definition eventTitle {Raw} (ev : TranscriptEvent Raw) : string :=
  let k := JS.toLowerCase (kind ev) in
  if String.eqb k "message" then "Message"
  else if bool_decide (classifyEvent ev = tools) then
    match tool ev with
    | Some t => if JS.truthy t then "Tool " +:+ String middleDot (" " +:+ t) else "Tool"
    | None => "Tool"
    end
  else if JS.includes k "decision" then "Decision"
  else if JS.includes k "doc" then "Doc"
  else if isStatusKind k then replaceAll k "_" " "
  else if JS.truthy (kind ev) then kind ev else "Event".

Definition eventBody {Raw} (ev : TranscriptEvent Raw) : string :=
  if JS.truthyOpt (text ev) then JS.orElse (text ev) ""
  else
    let k := JS.toLowerCase (kind ev) in
    if String.eqb k "message" then "(message)"
    else if isStatusKind k then "(status update)"
    else "(raw)".

(** ** Relative times *)

Definition decDigit (d : N) : ascii := ascii_of_N (48 + d).

(** The decimal digits of [n], most significant first, before [acc]. *)
Fixpoint decDigits (fuel : nat) (n : N) (acc : string) : string :=
  match fuel with
  | O => acc
  | S f =>
      let acc' := String (decDigit (n mod 10)) acc in
      if (n <? 10)%N then acc' else decDigits f (n / 10) acc'
  end.

(** The text of a natural number in a template literal. *)
Definition toString10 (n : Z) : string :=
  let m := Z.to_N n in
  decDigits (S (N.to_nat (N.log2 m))) m "".

(** [fmtRelTime(ts)] when [Date.now()] is [now]; the timestamps are whole
    milliseconds. *)
Definition fmtRelTime (now : Z) (ts : option Z) : string :=
  match ts with
  | None => ""
  | Some t =>
      if t =? 0 then ""
      else
        let diff := now - t in
        let s := Z.max 0 (diff / 1000) in
        if s <? 60 then toString10 s +:+ "s ago"
        else
          let m := s / 60 in
          if m <? 60 then toString10 m +:+ "m ago"
          else
            let h := m / 60 in
            if h <? 48 then toString10 h +:+ "h ago"
            else toString10 (h / 24) +:+ "d ago"
  end.

(** ** The roster and the counters of the top bar *)

Definition ROSTER : list string := ["Amey"; "OV Claw"] ++ AGENT_NICKNAMES.

(** [sessionsWithNames.find((s) => s.nickname === name) || null] *)
Definition rosterSession (name : string) (sessionsWithNames : list Named)
  : option Named :=
  List.find (fun s => String.eqb (nickname s) name) sessionsWithNames.

Definition taskStageKey (s : TaskStage) : string :=
  match s with
  | inbox => "inbox"
  | assigned => "assigned"
  | in_progress => "in_progress"
  | review => "review"
  | done => "done"
  end.

Definition leadStageKey (s : LeadStage) : string :=
  match s with
  | lead => "lead"
  | qualified => "qualified"
  | meeting => "meeting"
  | proposal => "proposal"
  | won => "won"
  | lost => "lost"
  end.

Definition PIPELINE_STAGES : list LeadStage :=
  [lead; qualified; meeting; proposal; won; lost].

(** [Object.fromEntries(stages.map((s) => [s.key, 0]))] followed by the
    loop [by[x.stage] = (by[x.stage] || 0) + 1]. *)
Definition tally {A} (key : A -> string) (stages : list string) (items : list A)
  : gmap string nat :=
  fold_left
    (fun m x => <[key x := (default 0%nat (m !! key x) + 1)%nat]> m)
    items
    (list_to_map ((fun k => (k, 0%nat)) <$> stages)).

Module Kpi.
Record t := mk {
  agentCount : nat;
  activeAgents : nat;
  tasksInQueue : nat;
  leadsTotal : nat;
  byLead : gmap string nat;
  byTask : gmap string nat
}.
End Kpi.

Definition kpi (sessionsWithNames : list Named) (tasks : list Task.t)
  (leads : list Lead.t) : Kpi.t :=
  Kpi.mk
    (length ROSTER)
    (length sessionsWithNames)
    (length (List.filter (fun t => negb (bool_decide (Task.stage t = done))) tasks))
    (length leads)
    (tally (fun l => leadStageKey (Lead.stage l)) (leadStageKey <$> PIPELINE_STAGES) leads)
    (tally (fun t => taskStageKey (Task.stage t)) (taskStageKey <$> TASK_STAGES) tasks).

(** [kpi.byTask[stage.key] || 0], the number in the header of a column. *)
Definition columnCount (by_stage : gmap string nat) (key : string) : nat :=
  default 0%nat (by_stage !! key).

(** [tasks.filter((t) => t.stage === stage.key)], the cards of a column. *)
Definition taskColumn (stage : TaskStage) (tasks : list Task.t) : list Task.t :=
  List.filter (fun t => bool_decide (Task.stage t = stage)) tasks.

Definition leadColumn (stage : LeadStage) (leads : list Lead.t) : list Lead.t :=
  List.filter (fun l => bool_decide (Lead.stage l = stage)) leads.

(** ** The sessions panel: list poll, status poll, selection *)

Module Panel.
Record t := mk {
  sessions : option (list Session.t);
  selectedKey : option string;
  statusText : string;
  statusError : string
}.
End Panel.

(** The body of [/api/oc/sessions]: [{ ok, result: { count, sessions } }]. *)
Record SessionsBody := mkSessionsBody {
  sessionsOk : bool;
  sessionsResult : option (list Session.t)
}.

(** One poll of the session list; [reply] is [None] when the fetch or the
    parsing threw.  [seenSelectedKey] is the [selectedKey] the closure of
    [tick] reads. *)
Definition sessionsTick (seenSelectedKey : option string) (live : bool)
  (reply : option SessionsBody) (p : Panel.t) : Panel.t :=
  match reply with
  | None => p
  | Some j =>
      if negb live then p
      else if sessionsOk j then
        let p1 :=
          Panel.mk (sessionsResult j) (Panel.selectedKey p)
            (Panel.statusText p) (Panel.statusError p) in
        match sessionsResult j with
        | Some (s0 :: _) =>
            if negb (JS.truthyOpt seenSelectedKey) && JS.truthy (Session.key s0)
            then Panel.mk (Panel.sessions p1) (Some (Session.key s0))
                   (Panel.statusText p1) (Panel.statusError p1)
            else p1
        | _ => p1
        end
      else p
  end.

(** The poll as the component runs it: the effect has an empty dependency
    list, so [tick] keeps the [selectedKey] of the first render, [null]. *)
Definition sessionsPoll : bool -> option SessionsBody -> Panel.t -> Panel.t :=
  sessionsTick None.

(** [sessions ? withNicknames(sessions.sessions) : []] *)
Definition sessionsWithNames (p : Panel.t) : list Named :=
  match Panel.sessions p with
  | Some l => withNicknames l
  | None => []
  end.

(** [sessionsWithNames.find((s) => s.key === selectedKey) || null] *)
Definition selected (p : Panel.t) : option Named :=
  List.find
    (fun n => bool_decide (Some (Session.key (session n)) = Panel.selectedKey p))
    (sessionsWithNames p).



(** ** Loading the missions of the workspace *)

(** A row of the missions query, which also selects the assignee. *)
Record LoadedMission := mkLoadedMission {
  mission : MissionRow.t;
  assignee_profile_id : option string
}.

Section Missions.

Context {host : Host}.

(** One row as a task. *)
Definition taskOfMission (now : Z) (m : LoadedMission) : Task.t :=
  Task.mk (MissionRow.id (mission m)) (MissionRow.title (mission m))
    (Some (JS.orElse (MissionRow.description (mission m)) ""))
    (missionStatusToTaskStage (MissionRow.status (mission m)))
    (Some (default [] (MissionRow.tags (mission m))))
    (optOrUndefined (assignee_profile_id m))
    (rowTime (mission m) now).

(** The missions effect once the query is answered; [cancelled] is the
    flag its cleanup sets. *)
Definition missionsLoaded (now : Z) (cancelled : bool)
  (reply : Reply (list LoadedMission)) (st : State) : State :=
  match reply with
  | Ok rows =>
      if cancelled then st
      else setTasks (fun _ => List.map (taskOfMission now) rows) st
  | Err e => setDbError (errorMessage e "Failed to load missions") st
  end.

End Missions.

(** ** The login page *)

Module Login.

Inductive Mode := magic | password.

(** The fields of the form. *)
Record t := mk { mode : Mode; email : string; pass : string }.

Definition canSubmit (st : t) : bool :=
  if negb (JS.truthy (JS.trim (email st))) then false
  else
    match mode st with
    | password => if (String.length (pass st) <? 6)%nat then false else true
    | magic => true
    end.

End Login.

(** ** The gate in front of the dashboard *)

Module AuthGate.

Inductive Action := signOutToLogin | toLogin | stay.

(** The second effect of the gate in its form with the allowed-address
    check: [allowedEnv] is [NEXT_PUBLIC_ALLOWED_EMAIL], [userEmail] the
    email of the current user.  With no address configured it is the gate
    without the check. *)
Definition guard (allowedEnv userEmail : option string) (authed : bool)
  (pathname : string) : Action :=
  let allowed := (fun a => JS.toLowerCase (JS.trim a)) <$> allowedEnv in
  let currentEmail := JS.toLowerCase <$> userEmail in
  if JS.truthyOpt allowed && JS.truthyOpt currentEmail &&
     negb (bool_decide (currentEmail = allowed))
  then signOutToLogin
  else if negb authed && negb (String.eqb pathname "/login") then toLogin
  else stay.

End AuthGate.

(** A store that accepts every write but the audit events, and holds no
    events. *)
Definition acceptingStore : @Store textHost :=
  fun A c =>
    match c in RemoteCall A return Reply A with
    | UpdateMissionStatus _ _ => Ok tt
    | InsertMission ws title description tags st created_by =>
        Ok (MissionRow.mk "m9" title description (Some tags) st
              (Some "2026-01-01T00:00:00Z") None)
    | InsertEvent _ _ _ _ _ _ => Err demoError
    | SelectEvents _ _ => Ok []
    end.

(** ** Helpers of the statements *)

(** The type of the audit event a call writes, when it writes one. *)
Definition issuedEventType {host : Host} (i : Issued) : option string :=
  match i with
  | issued c =>
      match c with
      | InsertEvent _ ty _ _ _ _ => Some ty
      | _ => None
      end
  end.

(** The first code unit is white space. *)
Definition startsWhite (s : string) : bool :=
  match s with
  | EmptyString => false
  | String c _ => JS.isWhite c
  end.

(** The code units of a string. *)
Definition chars (s : string) : list ascii := list_ascii_of_string s.

(** The value of a string of hexadecimal digits, after [acc]. *)
Fixpoint hexValue (s : string) (acc : N) : N :=
  match s with
  | EmptyString => acc
  | String c r =>
      let n := N_of_ascii c in
      hexValue r (16 * acc + (if (n <? 58) then n - 48 else n - 87))%N
  end.

(** * Properties *)

(** ** Stage mapping *)

(** A list of distinct constructors has no duplicate. *)
Ltac nodup_enum :=
  repeat (apply NoDup_cons_2;
          [rewrite ?elem_of_cons, elem_of_nil; intuition discriminate|]);
  apply NoDup_nil_2.

Lemma TASK_STAGES_complete (s : TaskStage) : In s TASK_STAGES.
Proof. destruct s; simpl; tauto. Qed.

Lemma MISSION_STATUSES_complete (m : MissionStatus) : In m MISSION_STATUSES.
Proof. destruct m; simpl; tauto. Qed.

(** C5. The two stage mappings are total functions on the five task stages
    and the five mission statuses, inverse to each other in both directions:
    the mapping is a bijection, carries the list of stages onto the list of
    statuses in order, and both lists have five distinct members. *)
Theorem stage_status_bijection :
  (forall s : TaskStage,
     missionStatusToTaskStage (taskStageToMissionStatus s) = s) /\
  (forall m : MissionStatus,
     taskStageToMissionStatus (missionStatusToTaskStage m) = m) /\
  (forall s1 s2 : TaskStage,
     taskStageToMissionStatus s1 = taskStageToMissionStatus s2 -> s1 = s2) /\
  (forall m : MissionStatus, exists s, taskStageToMissionStatus s = m) /\
  List.map taskStageToMissionStatus TASK_STAGES = MISSION_STATUSES /\
  List.map missionStatusToTaskStage MISSION_STATUSES = TASK_STAGES /\
  (forall s : TaskStage, In s TASK_STAGES) /\
  (forall m : MissionStatus, In m MISSION_STATUSES) /\
  NoDup TASK_STAGES /\ NoDup MISSION_STATUSES /\
  length TASK_STAGES = 5%nat /\ length MISSION_STATUSES = 5%nat.
Proof.
  assert (Hl : forall s, missionStatusToTaskStage (taskStageToMissionStatus s) = s)
    by (intros []; reflexivity).
  assert (Hr : forall m, taskStageToMissionStatus (missionStatusToTaskStage m) = m)
    by (intros []; reflexivity).
  repeat split; try reflexivity.
  - exact Hl.
  - exact Hr.
  - intros s1 s2 E. rewrite <- (Hl s1), <- (Hl s2). now f_equal.
  - intros m. exists (missionStatusToTaskStage m). apply Hr.
  - apply TASK_STAGES_complete.
  - apply MISSION_STATUSES_complete.
  - nodup_enum.
  - nodup_enum.
Qed.

Lemma stage_status_bijection_witness :
  taskStageToMissionStatus review = taskStageToMissionStatus review /\
  review = review.
Proof.
  split; [reflexivity|].
  exact (proj1 (proj2 (proj2 stage_status_bijection)) review review eq_refl).
Defined.

(** ** Event classifier *)

Section Classifier.

Context {Raw : Type}.

Implicit Types (ev : TranscriptEvent Raw) (events : list (TranscriptEvent Raw)).

Lemma toLowerCase_idempotent (s : string) :
  JS.toLowerCase (JS.toLowerCase s) = JS.toLowerCase s.
Proof.
  induction s as [|c r IH]; simpl; [reflexivity|].
  rewrite IH. f_equal.
  destruct c as [[] [] [] [] [] [] [] []]; reflexivity.
Qed.

Lemma isStatusKind_lower (k : string) :
  isStatusKind (JS.toLowerCase k) = isStatusKind k.
Proof. unfold isStatusKind. now rewrite toLowerCase_idempotent. Qed.

Lemma classifyEvent_firstMatch ev : classifyEvent ev = firstMatch precedence ev.
Proof.
  unfold classifyEvent, precedence, firstMatch.
  destruct (JS.truthyOpt (tool ev) || _ || _); [reflexivity|].
  destruct (String.eqb _ "message"); [reflexivity|].
  destruct (JS.includes _ "decision"); [reflexivity|].
  destruct (JS.includes _ "doc"); [reflexivity|].
  rewrite isStatusKind_lower. unfold isStatusKind.
  destruct (_ || _); reflexivity.
Qed.

Lemma classifyEvent_tool ev :
  JS.truthyOpt (tool ev) = true -> classifyEvent ev = tools.
Proof. intros E. unfold classifyEvent. now rewrite E. Qed.

(** C4. [classifyEvent] is the first-match evaluation of the rule table in
    the order tools, messages, decisions, docs, status, with [other] when no
    rule fires.  An event with a non-empty tool and kind "decision" is
    [tools]; an event of kind "tool_decision" whose tool is absent or empty
    is [decisions]. *)
Theorem classifyEvent_precedence :
  (forall ev, classifyEvent ev = firstMatch precedence ev) /\
  List.map snd (@precedence Raw) = [tools; messages; decisions; docs; status] /\
  (forall ts text c r raw,
     classifyEvent (mkEvent Raw ts "decision" text (Some (String c r)) raw) = tools) /\
  (forall ts text raw,
     classifyEvent (mkEvent Raw ts "tool_decision" text None raw) = decisions) /\
  (forall ts text raw,
     classifyEvent (mkEvent Raw ts "tool_decision" text (Some "") raw) = decisions).
Proof.
  split; [exact classifyEvent_firstMatch|].
  repeat split; reflexivity.
Qed.

(** ** Feed counts *)

Lemma countOf_cons c ev events :
  countOf c (ev :: events) =
  ((if bool_decide (classifyEvent ev = c) then 1 else 0) + countOf c events)%nat.
Proof. unfold countOf, filteredBy. simpl. now destruct (bool_decide _). Qed.

(** The loop adds to each counter the number of events of its category. *)
Lemma countStep_fold events (c0 : Counts.t) :
  fold_left countStep events c0 =
  Counts.mk (Counts.all c0)
    (Counts.tools c0 + countOf tools events)
    (Counts.messages c0 + countOf messages events)
    (Counts.decisions c0 + countOf decisions events)
    (Counts.docs c0 + countOf docs events)
    (Counts.status c0 + countOf status events).
Proof.
  revert c0. induction events as [|ev events IH]; intros [a t m d o s].
  - simpl. unfold countOf. simpl. now rewrite !Nat.add_0_r.
  - simpl fold_left. rewrite IH, !countOf_cons. unfold countStep.
    destruct (classifyEvent ev); simpl; f_equal; lia.
Qed.

(** C8. The filter counts: [all] is the length of the event list and each
    category counter is the number of events [classifyEvent] sends to that
    category; three events of kinds "tool_call", "message", "status" with
    no tool give all 3, tools 1, messages 1, decisions 0, docs 0, status 1. *)
Theorem feedCounts_by_category :
  (forall events,
     Counts.all (feedCounts events) = length events /\
     Counts.tools (feedCounts events) = countOf tools events /\
     Counts.messages (feedCounts events) = countOf messages events /\
     Counts.decisions (feedCounts events) = countOf decisions events /\
     Counts.docs (feedCounts events) = countOf docs events /\
     Counts.status (feedCounts events) = countOf status events) /\
  (forall ts1 ts2 ts3 text1 text2 text3 raw1 raw2 raw3,
     feedCounts
       [ mkEvent Raw ts1 "tool_call" text1 None raw1;
         mkEvent Raw ts2 "message" text2 None raw2;
         mkEvent Raw ts3 "status" text3 None raw3 ] =
     Counts.mk 3 1 1 0 0 1).
Proof.
  split.
  - intros events. unfold feedCounts. rewrite countStep_fold. simpl.
    repeat split; reflexivity.
  - intros. reflexivity.
Qed.

End Classifier.

(** ** Identity assignment *)

Lemma insertByRecency_perm (x : Session.t) (l : list Session.t) :
  insertByRecency x l ≡ₚ x :: l.
Proof.
  induction l as [|y l IH]; simpl; [reflexivity|].
  destruct (recency y <=? recency x); [reflexivity|].
  rewrite IH. apply Permutation_swap.
Qed.

(** The sort keeps every session. *)
Lemma sortByRecency_perm (sessions : list Session.t) :
  sortByRecency sessions ≡ₚ sessions.
Proof.
  induction sessions as [|x l IH]; simpl; [reflexivity|].
  rewrite insertByRecency_perm. now rewrite IH.
Qed.

Lemma insertByRecency_sorted (x : Session.t) (l : list Session.t) :
  Sorted notOlder l -> Sorted notOlder (insertByRecency x l).
Proof.
  induction l as [|y l IH]; intros Hs; simpl.
  - repeat constructor.
  - destruct (Z.leb_spec (recency y) (recency x)) as [Hle|Hlt].
    + constructor; [exact Hs|]. constructor. exact Hle.
    + inversion Hs as [|? ? Hl Hhd]; subst.
      constructor; [now apply IH|].
      destruct l as [|z l]; simpl.
      * constructor. unfold notOlder. lia.
      * destruct (recency z <=? recency x); constructor.
        -- unfold notOlder. lia.
        -- now inversion Hhd.
Qed.

(** The sorted list is in descending order of [updatedAt || 0]. *)
Lemma sortByRecency_sorted (sessions : list Session.t) :
  Sorted notOlder (sortByRecency sessions).
Proof.
  induction sessions as [|x l IH]; simpl; [constructor|].
  now apply insertByRecency_sorted.
Qed.

Section IdentityFacts.

Variable pool : list string.

Implicit Types (m : gmap string (option string)) (s : Session.t)
  (l sessions : list Session.t).

Lemma guessNicknameIn_Some s g :
  guessNicknameIn pool s = Some g ->
  g ∈ pool /\ JS.includes (haystack s) (JS.toLowerCase g) = true.
Proof.
  unfold guessNicknameIn. intros E. apply find_some in E as [Hin Hinc].
  split; [now apply list_elem_of_In | exact Hinc].
Qed.

Lemma guessNicknameIn_match s p :
  p ∈ pool -> JS.includes (haystack s) (JS.toLowerCase p) = true ->
  exists g, guessNicknameIn pool s = Some g.
Proof.
  intros Hin Hinc. unfold guessNicknameIn.
  destruct (List.find _ pool) as [g|] eqn:E; [now exists g|].
  apply list_elem_of_In in Hin.
  pose proof (find_none _ _ E _ Hin) as Hno. simpl in Hno. congruence.
Qed.

Lemma explicitStep_poolValued m s : poolValued pool m -> poolValued pool (explicitStep pool m s).
Proof.
  intros Hm. unfold explicitStep.
  destruct (guessNicknameIn pool s) as [g|] eqn:E; [|exact Hm].
  destruct (JS.truthy g); [|exact Hm].
  intros k v. rewrite lookup_insert. case_decide; [|apply Hm].
  intros [= <-]. exists g. split; [reflexivity|].
  now apply guessNicknameIn_Some in E.
Qed.

Lemma explicit_poolValued l m :
  poolValued pool m -> poolValued pool (fold_left (explicitStep pool) l m).
Proof.
  revert m. induction l as [|s l IH]; intros m Hm; simpl; [exact Hm|].
  apply IH, explicitStep_poolValued, Hm.
Qed.

Lemma explicitStep_other m s k :
  Session.key s ≠ k -> explicitStep pool m s !! k = m !! k.
Proof.
  intros Hne. unfold explicitStep.
  destruct (guessNicknameIn pool s) as [g|]; [|reflexivity].
  destruct (JS.truthy g); [|reflexivity].
  now rewrite lookup_insert_ne.
Qed.

Lemma explicit_other l m k :
  k ∉ List.map Session.key l ->
  fold_left (explicitStep pool) l m !! k = m !! k.
Proof.
  revert m. induction l as [|s l IH]; intros m Hk; simpl; [reflexivity|].
  simpl in Hk. apply not_elem_of_cons in Hk as [Hne Hk].
  rewrite IH by exact Hk. apply explicitStep_other. congruence.
Qed.

(** With distinct keys the first loop leaves each explicit match in place. *)
Lemma explicit_keeps l m s g :
  NoDup (List.map Session.key l) -> s ∈ l ->
  guessNicknameIn pool s = Some g -> JS.truthy g = true ->
  fold_left (explicitStep pool) l m !! Session.key s = Some (Some g).
Proof.
  revert m. induction l as [|a l IH]; intros m Hnd Hin Hg Ht.
  - now apply elem_of_nil in Hin.
  - simpl in Hnd. apply NoDup_cons in Hnd as [Ha Hnd].
    apply elem_of_cons in Hin as [->|Hin]; simpl.
    + rewrite explicit_other by exact Ha.
      unfold explicitStep. rewrite Hg, Ht. apply lookup_insert_eq.
    + now apply IH.
Qed.

Lemma recency_keeps l m i k v :
  m !! k = Some v ->
  (fold_left (recencyStep pool) l (m, i)).1 !! k = Some v.
Proof.
  revert m i. induction l as [|s l IH]; intros m i Hk; simpl; [exact Hk|].
  destruct (m !! Session.key s) eqn:E; [now apply IH|].
  apply IH. rewrite lookup_insert_ne; [exact Hk|]. congruence.
Qed.

Lemma recency_binds l m i s :
  s ∈ l -> is_Some ((fold_left (recencyStep pool) l (m, i)).1 !! Session.key s).
Proof.
  revert m i. induction l as [|a l IH]; intros m i Hin.
  - now apply elem_of_nil in Hin.
  - simpl. apply elem_of_cons in Hin as [->|Hin].
    + destruct (m !! Session.key a) as [v|] eqn:E.
      * exists v. now apply recency_keeps.
      * exists (poolAt pool i). apply recency_keeps, lookup_insert_eq.
    + destruct (m !! Session.key a); now apply IH.
Qed.

Lemma poolAt_member i : pool ≠ [] -> exists g, poolAt pool i = Some g /\ g ∈ pool.
Proof.
  intros Hne. unfold poolAt.
  assert (Hlt : (i mod length pool < length pool)%nat).
  { apply Nat.mod_upper_bound. destruct pool; [congruence | simpl; lia]. }
  apply lookup_lt_is_Some in Hlt as [g Hg].
  exists g. split; [exact Hg|]. eapply list_elem_of_lookup_2, Hg.
Qed.

Lemma recency_poolValued l m i :
  pool ≠ [] -> poolValued pool m ->
  poolValued pool (fold_left (recencyStep pool) l (m, i)).1.
Proof.
  intros Hne. revert m i. induction l as [|s l IH]; intros m i Hm; simpl; [exact Hm|].
  destruct (m !! Session.key s) eqn:E; [now apply IH|].
  apply IH. intros k v. rewrite lookup_insert. case_decide; [|apply Hm].
  intros [= <-]. destruct (poolAt_member i Hne) as (g & -> & Hg). eauto.
Qed.

Lemma bindingIn_poolValued sessions : pool ≠ [] -> poolValued pool (bindingIn pool sessions).
Proof.
  intros Hne. unfold bindingIn. apply recency_poolValued; [exact Hne|].
  apply explicit_poolValued. intros k v. now rewrite lookup_empty.
Qed.

Lemma bindingIn_binds sessions s :
  s ∈ sessions -> is_Some (bindingIn pool sessions !! Session.key s).
Proof.
  intros Hin. unfold bindingIn. apply recency_binds.
  now rewrite sortByRecency_perm.
Qed.

(** Every session of the list gets a name of the pool, never the
    placeholder, when the pool is not empty and holds no empty name. *)
Lemma nicknameOf_binding sessions s :
  pool ≠ [] -> Forall (fun n => JS.truthy n = true) pool -> s ∈ sessions ->
  nicknameOf (bindingIn pool sessions) (Session.key s) ∈ pool /\
  bindingIn pool sessions !! Session.key s =
    Some (Some (nicknameOf (bindingIn pool sessions) (Session.key s))).
Proof.
  intros Hne Hall Hin.
  destruct (bindingIn_binds sessions s Hin) as [v Hv].
  destruct (bindingIn_poolValued sessions Hne _ _ Hv) as (g & -> & Hg).
  unfold nicknameOf. rewrite Hv.
  rewrite Forall_forall in Hall. rewrite (Hall g Hg). now split.
Qed.

(** With distinct keys an explicit match is the nickname. *)
Lemma nicknameOf_explicit sessions s g :
  NoDup (List.map Session.key sessions) -> s ∈ sessions ->
  guessNicknameIn pool s = Some g -> JS.truthy g = true ->
  nicknameOf (bindingIn pool sessions) (Session.key s) = g.
Proof.
  intros Hnd Hin Hg Ht. unfold nicknameOf, bindingIn.
  rewrite (recency_keeps _ _ _ _ (Some g)) by (apply explicit_keeps; assumption).
  now rewrite Ht.
Qed.

Lemma withNicknamesIn_sessions sessions :
  List.map session (withNicknamesIn pool sessions) = sessions.
Proof.
  unfold withNicknamesIn. rewrite List.map_map. simpl. apply List.map_id.
Qed.

Lemma withNicknamesIn_elem sessions n :
  n ∈ withNicknamesIn pool sessions ->
  session n ∈ sessions /\
  nickname n = nicknameOf (bindingIn pool sessions) (Session.key (session n)).
Proof.
  unfold withNicknamesIn. intros Hin.
  apply list_elem_of_In, in_map_iff in Hin as (s & <- & Hs). simpl.
  split; [now apply list_elem_of_In | reflexivity].
Qed.

End IdentityFacts.

Lemma AGENT_NICKNAMES_truthy : Forall (fun n => JS.truthy n = true) AGENT_NICKNAMES.
Proof. repeat constructor. Qed.

Lemma AGENT_NICKNAMES_nonempty : AGENT_NICKNAMES ≠ [].
Proof. discriminate. Qed.

(** C2, amended.  [withNicknames] returns the sessions it was given, each
    with one nickname, and that nickname is a name of the pool (never the
    placeholder).  When the keys of the sessions are pairwise distinct, a
    session whose text contains a pool name, ignoring case, has the
    nickname [guessNickname] finds for it (the first such name in pool
    order), whatever its [updatedAt]. *)
Theorem withNicknames_binding (sessions : list Session.t) :
  List.map session (withNicknames sessions) = sessions /\
  (forall n, n ∈ withNicknames sessions -> nickname n ∈ AGENT_NICKNAMES) /\
  (NoDup (List.map Session.key sessions) ->
   forall n p, n ∈ withNicknames sessions -> p ∈ AGENT_NICKNAMES ->
     JS.includes (haystack (session n)) (JS.toLowerCase p) = true ->
     exists g, guessNickname (session n) = Some g /\
               JS.includes (haystack (session n)) (JS.toLowerCase g) = true /\
               nickname n = g).
Proof.
  unfold withNicknames. split; [apply withNicknamesIn_sessions|]. split.
  - intros n Hn. apply withNicknamesIn_elem in Hn as [Hs ->].
    now apply nicknameOf_binding;
      [apply AGENT_NICKNAMES_nonempty | apply AGENT_NICKNAMES_truthy|].
  - intros Hnd n p Hn Hp Hinc. apply withNicknamesIn_elem in Hn as [Hs ->].
    destruct (guessNicknameIn_match _ _ _ Hp Hinc) as [g Hg].
    exists g. split; [exact Hg|].
    destruct (guessNicknameIn_Some _ _ _ Hg) as [Hgp Hgi].
    split; [exact Hgi|].
    apply nicknameOf_explicit; try assumption.
    pose proof AGENT_NICKNAMES_truthy as Hall.
    rewrite Forall_forall in Hall. now apply Hall.
Qed.

Lemma withNicknames_binding_witness :
  NoDup (List.map Session.key [scenarioA; scenarioB]) /\
  exists g, guessNickname scenarioA = Some g /\
            JS.includes (haystack scenarioA) (JS.toLowerCase g) = true /\
            nickname (mkNamed scenarioA "Orbit") = g.
Proof.
  assert (Hnd : NoDup (List.map Session.key [scenarioA; scenarioB])).
  { simpl. nodup_enum. }
  split; [exact Hnd|].
  apply (proj2 (proj2 (withNicknames_binding [scenarioA; scenarioB])) Hnd
           (mkNamed scenarioA "Orbit") "Orbit").
  - apply list_elem_of_In. vm_compute. left. reflexivity.
  - apply list_elem_of_In. vm_compute. left. reflexivity.
  - vm_compute. reflexivity.
Defined.

(** C2 as stated fails when two sessions share a key: the first names
    Orbit, the second names Forge, and both come out as Forge. *)
Lemma withNicknames_shared_key :
  guessNickname sharedKey1 = Some "Orbit" /\
  withNicknames [sharedKey1; sharedKey2] =
    [mkNamed sharedKey1 "Forge"; mkNamed sharedKey2 "Forge"] /\
  ~ (forall sessions n g,
       n ∈ withNicknames sessions -> guessNickname (session n) = Some g ->
       nickname n = g).
Proof.
  assert (E : withNicknames [sharedKey1; sharedKey2] =
              [mkNamed sharedKey1 "Forge"; mkNamed sharedKey2 "Forge"])
    by (vm_compute; reflexivity).
  split; [vm_compute; reflexivity|]. split; [exact E|].
  intros Hall.
  assert (Hn : nickname (mkNamed sharedKey1 "Forge") = "Orbit").
  { apply (Hall [sharedKey1; sharedKey2]).
    - rewrite E. constructor.
    - vm_compute. reflexivity. }
  discriminate Hn.
Qed.

(** C3, amended.  For the sessions a (label "Orbit handles X", updated at
    100) and b (label "unlabeled", updated at 200) the binding is a to
    Orbit and b to Orbit, with the pool of the scenario and with the pool of
    the source: the counter of the recency fill starts at the first pool
    entry and does not skip a name taken by an explicit match. *)
Theorem scenario_binding :
  bindingOf (withNicknamesIn ["Orbit"; "Forge"] [scenarioA; scenarioB]) =
    [("a", "Orbit"); ("b", "Orbit")] /\
  bindingOf (withNicknames [scenarioA; scenarioB]) =
    [("a", "Orbit"); ("b", "Orbit")].
Proof. split; vm_compute; reflexivity. Qed.

(** C3 as stated fails: b does not receive Forge. *)
Lemma forge_scenario_refuted :
  bindingOf (withNicknamesIn ["Orbit"; "Forge"] [scenarioA; scenarioB]) <>
    [("a", "Orbit"); ("b", "Forge")] /\
  bindingOf (withNicknames [scenarioA; scenarioB]) <>
    [("a", "Orbit"); ("b", "Forge")].
Proof. split; vm_compute; discriminate. Qed.

(** ** Handlers *)

Lemma truthy_true (s : string) : JS.truthy s = true <-> s <> "".
Proof.
  unfold JS.truthy. rewrite negb_true_iff. split.
  - intros E ->. discriminate E.
  - intros Hne. destruct (String.eqb_spec s ""); [contradiction | reflexivity].
Qed.

Lemma truthy_false (s : string) : JS.truthy s = false <-> s = "".
Proof.
  unfold JS.truthy. rewrite negb_false_iff. apply String.eqb_eq.
Qed.

Lemma orUndefined_empty (s : string) : s = "" -> JS.orUndefined s = None.
Proof. intros ->. reflexivity. Qed.

Lemma orUndefined_text (s : string) : s <> "" -> JS.orUndefined s = Some s.
Proof. intros Hne. unfold JS.orUndefined. now apply truthy_true in Hne as ->. Qed.

(** A map that fixes every member fixes the list. *)
Lemma map_fixed {A} (f : A -> A) (l : list A) :
  (forall x, x ∈ l -> f x = x) -> List.map f l = l.
Proof.
  induction l as [|a l IH]; intros Hf; simpl; [reflexivity|].
  rewrite Hf by constructor. f_equal. apply IH. intros x Hx. apply Hf. now constructor.
Qed.

(** *** moveTask *)

Section MoveTask.

Context {host : Host}.

Implicit Types (st : State) (store : Store).

Lemma moveTask_optimistic now id stage st i t :
  tasks st !! i = Some t ->
  List.map (fun t => if String.eqb (Task.id t) id then restageTask stage now t else t)
    (tasks st) !! i =
  Some (if String.eqb (Task.id t) id then restageTask stage now t else t).
Proof. intros Hi. change List.map with (@fmap list _). now rewrite list_lookup_fmap, Hi. Qed.

(** C1. With a workspace, when the remote status update of
    [moveTask id stage] returns an error: the handler had shown the move
    (the tasks with that id at the new stage and the clock's time) and
    awaited the update; its continuation, at whatever state the component
    is in by then, puts back the task list the handler started from and
    sets the error text; run to its end the handler leaves every task with
    that id at its stage and [updatedAt] from before the call, and the only
    call it issued is the failed update. *)
Theorem moveTask_rollback store now id stage st ws e :
  present (workspaceId st) = Some ws ->
  store _ (UpdateMissionStatus id (taskStageToMissionStatus stage)) = Err e ->
  (exists st1 k,
     moveTask now id stage st =
       Call st1 (UpdateMissionStatus id (taskStageToMissionStatus stage)) k /\
     (forall i t, tasks st !! i = Some t -> Task.id t = id ->
        tasks st1 !! i = Some (restageTask stage now t)) /\
     (forall st2, exists st3,
        k (Err e) st2 = Ret st3 /\
        tasks st3 = tasks st /\
        dbError st3 = errorMessage e "Failed to update mission")) /\
  tasks (run store (moveTask now id stage st)).1 = tasks st /\
  (forall i t, tasks st !! i = Some t -> Task.id t = id ->
     exists t', tasks (run store (moveTask now id stage st)).1 !! i = Some t' /\
                Task.id t' = id /\
                Task.stage t' = Task.stage t /\
                Task.updatedAt t' = Task.updatedAt t) /\
  dbError (run store (moveTask now id stage st)).1 =
    errorMessage e "Failed to update mission" /\
  (run store (moveTask now id stage st)).2 =
    [issued (UpdateMissionStatus id (taskStageToMissionStatus stage))].
Proof.
  intros Hws Herr.
  assert (Hrun : run store (moveTask now id stage st) =
                 (setTasks (fun _ => tasks st)
                    (setDbError (errorMessage e "Failed to update mission")
                       (setTasks (List.map (fun t =>
                          if String.eqb (Task.id t) id
                          then restageTask stage now t else t)) st)),
                  [issued (UpdateMissionStatus id (taskStageToMissionStatus stage))])).
  { unfold moveTask. rewrite Hws. simpl. rewrite Herr. reflexivity. }
  split.
  - unfold moveTask. rewrite Hws. eexists _, _. split; [reflexivity|]. split.
    + intros i t Hi Hid. simpl. rewrite (moveTask_optimistic _ _ _ _ _ _ Hi).
      apply String.eqb_eq in Hid. now rewrite Hid.
    + intros st2. eexists. split; [reflexivity|]. now split.
  - rewrite Hrun. simpl. split; [reflexivity|]. split; [|now split].
    intros i t Hi Hid. exists t. now repeat split.
Qed.

End MoveTask.

Lemma moveTask_rollback_witness :
  present (workspaceId demoState) = Some "w" /\
  failingStore _ (UpdateMissionStatus "m1" (taskStageToMissionStatus done)) =
    Err demoError /\
  tasks (run failingStore (moveTask 9 "m1" done demoState)).1 = [demoTask] /\
  dbError (run failingStore (moveTask 9 "m1" done demoState)).1 = "permission denied".
Proof.
  split; [reflexivity|]. split; [reflexivity|].
  pose proof (moveTask_rollback failingStore 9 "m1" done demoState "w" demoError
                eq_refl eq_refl) as (_ & Ht & _ & Hd & _).
  split; [exact Ht | exact Hd].
Defined.

(** *** moveLead *)

Section MoveLead.

Context {host : Host}.

Implicit Types (st : State) (store : Store).

(** C10. [moveLead id stage] returns at once without a remote call; in the
    new list each lead stands where it stood; a lead with the given id has
    the new stage and the clock's time and all its other fields as before; a
    lead with another id is unchanged; when no lead has the id the list is
    unchanged; nothing else in the component changes. *)
Theorem moveLead_frame store now id stage st :
  exists st',
    moveLead now id stage st = Ret st' /\
    run store (moveLead now id stage st) = (st', []) /\
    length (leads st') = length (leads st) /\
    (forall i l, leads st !! i = Some l -> Lead.id l = id ->
       leads st' !! i =
         Some (Lead.mk (Lead.id l) (Lead.name l) (Lead.company l) (Lead.role l)
                 stage (Lead.value l) (Lead.nextStep l) now)) /\
    (forall i l, leads st !! i = Some l -> Lead.id l <> id ->
       leads st' !! i = Some l) /\
    ((forall l, l ∈ leads st -> Lead.id l <> id) -> leads st' = leads st) /\
    tasks st' = tasks st /\ newLead st' = newLead st /\ newTask st' = newTask st /\
    workspaceId st' = workspaceId st /\ profileId st' = profileId st /\
    dbError st' = dbError st /\ events st' = events st /\
    eventsError st' = eventsError st.
Proof.
  unfold moveLead. eexists. split; [reflexivity|]. split; [reflexivity|]. simpl.
  split; [apply length_map|].
  assert (Hat : forall i l, leads st !! i = Some l ->
            List.map (fun l => if String.eqb (Lead.id l) id
                               then restageLead stage now l else l) (leads st) !! i =
            Some (if String.eqb (Lead.id l) id then restageLead stage now l else l)).
  { intros i l Hi. change List.map with (@fmap list _).
    now rewrite list_lookup_fmap, Hi. }
  split; [|split; [|split]].
  - intros i l Hi Hid. rewrite (Hat _ _ Hi).
    apply String.eqb_eq in Hid. now rewrite Hid.
  - intros i l Hi Hid. rewrite (Hat _ _ Hi).
    apply String.eqb_neq in Hid. now rewrite Hid.
  - intros Hno. apply map_fixed. intros l Hl.
    specialize (Hno l Hl). apply String.eqb_neq in Hno. now rewrite Hno.
  - now repeat split.
Qed.

End MoveLead.

Lemma moveLead_frame_witness :
  leads demoState !! 0%nat = Some demoLead /\
  Lead.id demoLead = "l1" /\
  exists st',
    moveLead 9 "l1" won demoState = Ret st' /\
    leads st' !! 0%nat = Some (Lead.mk "l1" "Asha" "Acme" None won None None 9).
Proof.
  split; [reflexivity|]. split; [reflexivity|].
  destruct (moveLead_frame failingStore 9 "l1" won demoState)
    as (st' & Hret & _ & _ & Hhit & _).
  exists st'. split; [exact Hret|].
  exact (Hhit 0%nat demoLead eq_refl eq_refl).
Defined.

(** *** addLead *)

Section AddLead.

Context {host : Host}.

Implicit Types (st : State) (store : Store).

(** C9. [addLead] leaves the component as it is when the trimmed name or
    the trimmed company of the form is empty.  Otherwise it puts one new
    lead in front of the leads, which are kept as they were: its stage is
    [lead], its id is the generated one, its time is the clock's, its name
    and company are the trimmed texts, and each of role, value and next step
    is absent when its trimmed text is empty and is that trimmed text
    otherwise; the form is cleared.  No remote call is issued. *)
Theorem addLead_prepends store rnd tUid now st :
  let form := newLead st in
  let name := JS.trim (LeadForm.name form) in
  let company := JS.trim (LeadForm.company form) in
  let role := JS.trim (LeadForm.role form) in
  let value := JS.trim (LeadForm.value form) in
  let nextStep := JS.trim (LeadForm.nextStep form) in
  (name = "" \/ company = "" -> addLead rnd tUid now st = Ret st) /\
  (name <> "" -> company <> "" ->
   exists st' l,
     addLead rnd tUid now st = Ret st' /\
     leads st' = l :: leads st /\
     Lead.stage l = lead /\
     Lead.id l = uid rnd tUid /\
     Lead.updatedAt l = now /\
     Lead.name l = name /\ Lead.company l = company /\
     (role = "" -> Lead.role l = None) /\
     (role <> "" -> Lead.role l = Some role) /\
     (value = "" -> Lead.value l = None) /\
     (value <> "" -> Lead.value l = Some value) /\
     (nextStep = "" -> Lead.nextStep l = None) /\
     (nextStep <> "" -> Lead.nextStep l = Some nextStep) /\
     newLead st' = LeadForm.empty /\ tasks st' = tasks st) /\
  (run store (addLead rnd tUid now st)).2 = [].
Proof.
  intros form name company role value nextStep. unfold addLead.
  fold form. fold name. fold company. split; [|split].
  - intros [E|E]; apply truthy_false in E; rewrite E; [reflexivity|].
    now rewrite orb_true_r.
  - intros Hn Hc. apply truthy_true in Hn, Hc. rewrite Hn, Hc. simpl.
    eexists _, _. split; [reflexivity|]. simpl. split; [reflexivity|].
    fold role value nextStep.
    repeat split; simpl; auto using orUndefined_empty, orUndefined_text.
  - destruct (negb (JS.truthy name) || negb (JS.truthy company)); reflexivity.
Qed.

End AddLead.

Lemma addLead_prepends_witness :
  JS.trim (LeadForm.name (newLead demoState)) <> "" /\
  JS.trim (LeadForm.company (newLead demoState)) <> "" /\
  exists st' l,
    addLead "0.8" 1700000000000 1700000000001 demoState = Ret st' /\
    leads st' = l :: leads demoState /\
    Lead.stage l = lead.
Proof.
  assert (Hn : JS.trim (LeadForm.name (newLead demoState)) <> "")
    by (vm_compute; discriminate).
  assert (Hc : JS.trim (LeadForm.company (newLead demoState)) <> "")
    by (vm_compute; discriminate).
  split; [exact Hn|]. split; [exact Hc|].
  destruct (proj1 (proj2 (addLead_prepends failingStore "0.8" 1700000000000
                            1700000000001 demoState)) Hn Hc)
    as (st' & l & Hret & Hleads & Hstage & _).
  exists st', l. now repeat split.
Defined.

(** *** addTask *)

Lemma hexDigits_nonempty (fuel : nat) (n : N) (acc : string) :
  acc <> "" -> JS.hexDigits fuel n acc <> "".
Proof.
  revert n acc. induction fuel as [|f IH]; intros n acc Hacc; simpl; [exact Hacc|].
  destruct (n <? 16)%N; [discriminate|]. apply IH. discriminate.
Qed.

Lemma toString16_nonempty (n : Z) : JS.toString16 n <> "".
Proof.
  unfold JS.toString16. destruct (n <? 0); [discriminate|].
  apply not_eq_sym. cbn [JS.hexDigits].
  destruct (_ <? 16)%N; [discriminate|].
  apply not_eq_sym, hexDigits_nonempty. discriminate.
Qed.

(** The id [uid()] makes is never empty: it ends with the clock in
    hexadecimal. *)
Lemma uid_nonempty (rnd : string) (now : Z) : uid rnd now <> "".
Proof.
  unfold uid. pose proof (toString16_nonempty now) as Hn.
  destruct (JS.slice 2 rnd); [exact Hn | discriminate].
Qed.

Section AddTask.

Context {host : Host}.

Implicit Types (st : State) (store : Store).

(** C6, amended.  For a title that is not empty once trimmed: when the
    workspace or the profile is missing, or when the remote insert returns
    an error, [addTask] run to its end has put exactly one new task in
    front of the tasks, the task of the local path: stage [inbox], the id
    [uid()] generates, which is not empty, the clock's time, the trimmed
    title; and the form is cleared.  In the error case no call but the
    failed insert is issued, the error text is set, and the continuation
    puts the local task in front of whatever the task list is by then. *)
Theorem addTask_falls_through store rnd tUid now st :
  let form := newTask st in
  let title := JS.trim (TaskForm.title form) in
  let insert ws pid :=
    InsertMission ws title (JS.orUndefined (JS.trim (TaskForm.desc form)))
      (parseTags (TaskForm.tags form)) INBOX pid in
  title <> "" ->
  (present (workspaceId st) = None \/ present (profileId st) = None \/
   exists ws pid e,
     present (workspaceId st) = Some ws /\ present (profileId st) = Some pid /\
     store _ (insert ws pid) = Err e) ->
  (exists t,
     tasks (run store (addTask rnd tUid now st)).1 = t :: tasks st /\
     t = localTask rnd tUid now form /\
     Task.stage t = inbox /\
     Task.id t = uid rnd tUid /\ Task.id t <> "" /\
     Task.updatedAt t = now /\
     Task.title t = title /\
     newTask (run store (addTask rnd tUid now st)).1 = TaskForm.empty) /\
  (forall ws pid e,
     present (workspaceId st) = Some ws -> present (profileId st) = Some pid ->
     store _ (insert ws pid) = Err e ->
     (run store (addTask rnd tUid now st)).2 = [issued (insert ws pid)] /\
     dbError (run store (addTask rnd tUid now st)).1 =
       errorMessage e "Failed to add mission" /\
     exists k,
       addTask rnd tUid now st = Call st (insert ws pid) k /\
       forall st1, exists st2,
         k (Err e) st1 = Ret st2 /\
         tasks st2 = localTask rnd tUid now form :: tasks st1) /\
  (present (workspaceId st) = None \/ present (profileId st) = None ->
   (run store (addTask rnd tUid now st)).2 = []).
Proof.
  intros form title insert Ht Hcase.
  assert (Htt : JS.truthy title = true) by now apply truthy_true.
  assert (Hlocal : localTask rnd tUid now form =
            localTask rnd tUid now form /\
            Task.stage (localTask rnd tUid now form) = inbox /\
            Task.id (localTask rnd tUid now form) = uid rnd tUid /\
            Task.id (localTask rnd tUid now form) <> "" /\
            Task.updatedAt (localTask rnd tUid now form) = now /\
            Task.title (localTask rnd tUid now form) = title).
  { repeat split. simpl. apply uid_nonempty. }
  assert (Hoff : present (workspaceId st) = None \/ present (profileId st) = None ->
            run store (addTask rnd tUid now st) =
            (setNewTask TaskForm.empty
               (setTasks (fun prev => localTask rnd tUid now form :: prev) st), [])).
  { intros Hno. unfold addTask. fold form. fold title. rewrite Htt. simpl.
    destruct Hno as [-> | E]; [reflexivity|]. rewrite E.
    now destruct (present (workspaceId st)). }
  assert (Herr : forall ws pid e,
            present (workspaceId st) = Some ws -> present (profileId st) = Some pid ->
            store _ (insert ws pid) = Err e ->
            run store (addTask rnd tUid now st) =
            (setNewTask TaskForm.empty
               (setTasks (fun prev => localTask rnd tUid now form :: prev)
                  (setDbError (errorMessage e "Failed to add mission") st)),
             [issued (insert ws pid)])).
  { intros ws pid e Hws Hpid He. unfold addTask. fold form. fold title.
    rewrite Htt, Hws, Hpid. simpl. fold form title. fold (insert ws pid).
    rewrite He. reflexivity. }
  split; [|split].
  - exists (localTask rnd tUid now form).
    assert (Hrun : tasks (run store (addTask rnd tUid now st)).1 =
                     localTask rnd tUid now form :: tasks st /\
                   newTask (run store (addTask rnd tUid now st)).1 = TaskForm.empty).
    { destruct Hcase as [E | [E | (ws & pid & e & Hws & Hpid & He)]].
      - rewrite Hoff by now left. now split.
      - rewrite Hoff by now right. now split.
      - rewrite (Herr _ _ _ Hws Hpid He). now split. }
    destruct Hrun as [Hr1 Hr2]. destruct Hlocal as (H1 & H2 & H3 & H4 & H5 & H6).
    now repeat split.
  - intros ws pid e Hws Hpid He. rewrite (Herr _ _ _ Hws Hpid He). simpl.
    split; [reflexivity|]. split; [reflexivity|].
    unfold addTask. fold form. fold title. rewrite Htt, Hws, Hpid. simpl.
    eexists. split; [reflexivity|]. intros st1. eexists. split; reflexivity.
  - intros Hno. now rewrite Hoff.
Qed.

End AddTask.

Lemma addTask_falls_through_witness :
  JS.trim (TaskForm.title (newTask offlineState)) <> "" /\
  present (workspaceId offlineState) = None /\
  exists t,
    tasks (run failingStore
             (addTask "0.8" 1700000000000 1700000000001 offlineState)).1 =
      t :: tasks offlineState /\
    Task.stage t = inbox /\ Task.id t = "818bcfe56800" /\
    Task.updatedAt t = 1700000000001.
Proof.
  assert (Ht : JS.trim (TaskForm.title (newTask offlineState)) <> "")
    by (vm_compute; discriminate).
  split; [exact Ht|]. split; [reflexivity|].
  destruct (proj1 (addTask_falls_through failingStore "0.8" 1700000000000
                     1700000000001 offlineState Ht (or_introl eq_refl)))
    as (t & Htasks & _ & Hstage & Hid & _ & Hat & _).
  exists t. split; [exact Htasks|]. split; [exact Hstage|].
  split; [rewrite Hid; vm_compute; reflexivity | exact Hat].
Defined.

(** C6 as stated fails on the uniqueness of the id: nothing compares the
    generated id with the ids in the list, and the same random text at the
    same clock gives an id the list already holds. *)
Lemma addTask_id_not_unique :
  JS.trim (TaskForm.title (newTask collisionState)) <> "" /\
  present (workspaceId collisionState) = None /\
  NoDup (List.map Task.id (tasks collisionState)) /\
  List.map Task.id
    (tasks (run failingStore
              (addTask "0.8" 1700000000000 1700000000000 collisionState)).1) =
    ["818bcfe56800"; "818bcfe56800"] /\
  ~ NoDup (List.map Task.id
             (tasks (run failingStore
                       (addTask "0.8" 1700000000000 1700000000000
                          collisionState)).1)).
Proof.
  assert (E : List.map Task.id
                (tasks (run failingStore
                          (addTask "0.8" 1700000000000 1700000000000
                             collisionState)).1) =
              ["818bcfe56800"; "818bcfe56800"]) by (vm_compute; reflexivity).
  split; [vm_compute; discriminate|]. split; [reflexivity|].
  split; [simpl; nodup_enum|]. split; [exact E|].
  rewrite E. intros Hnd. apply NoDup_cons in Hnd as [Hnotin _].
  apply Hnotin. constructor.
Qed.

(** *** Mission events *)

Section MissionEvents.

Context {host : Host}.

Implicit Types (st : State) (store : Store).

(** C7, amended.  While the workspace identifier is absent the effect sets
    the event list to empty and the text "Waiting for workspace..." and
    issues no fetch.  With a workspace it polls; when the fetch fails and
    the run of the effect that issued it is still the live one, the event
    list is set to empty, whatever it held, and the error text is set; a
    poll of the effect run to its end with a failing store ends so. *)
Theorem missionEvents_policy store st :
  (present (workspaceId st) = None ->
   exists st',
     missionEventsEffect st = Ret st' /\
     events st' = [] /\
     eventsError st' = "Waiting for workspace..." /\
     (run store (missionEventsEffect st)).2 = []) /\
  (forall ws, present (workspaceId st) = Some ws ->
     missionEventsEffect st =
       tickMissionEvents ws (feedScope (newFeedScope st)) (newFeedScope st)) /\
  (forall ws me e st0, exists k,
     tickMissionEvents ws me st0 =
       Call (setEventsError "" st0) (SelectEvents ws 100) k /\
     forall st1, alive me st1 = true ->
       exists st2,
         k (Err e) st1 = Ret st2 /\
         events st2 = [] /\
         eventsError st2 = errorMessage e (asString e)) /\
  (forall ws e,
     present (workspaceId st) = Some ws ->
     store _ (SelectEvents ws 100) = Err e ->
     events (run store (missionEventsEffect st)).1 = [] /\
     eventsError (run store (missionEventsEffect st)).1 =
       errorMessage e (asString e) /\
     (run store (missionEventsEffect st)).2 = [issued (SelectEvents ws 100)]).
Proof.
  split; [|split; [|split]].
  - intros Hno. unfold missionEventsEffect.
    change (workspaceId (newFeedScope st)) with (workspaceId st). rewrite Hno.
    eexists. split; [reflexivity|]. now repeat split.
  - intros ws Hws. unfold missionEventsEffect.
    change (workspaceId (newFeedScope st)) with (workspaceId st). now rewrite Hws.
  - intros ws me e st0. unfold tickMissionEvents. eexists. split; [reflexivity|].
    intros st1 Hlive. simpl. rewrite Hlive. eexists. split; [reflexivity|]. now split.
  - intros ws e Hws He. unfold missionEventsEffect.
    change (workspaceId (newFeedScope st)) with (workspaceId st). rewrite Hws.
    unfold tickMissionEvents. simpl. rewrite He. unfold alive. simpl.
    rewrite Nat.eqb_refl. simpl. now repeat split.
Qed.

End MissionEvents.

Lemma missionEvents_policy_witness :
  present (workspaceId offlineState) = None /\
  exists st',
    missionEventsEffect offlineState = Ret st' /\
    events st' = [] /\
    eventsError st' = "Waiting for workspace...".
Proof.
  split; [reflexivity|].
  destruct (proj1 (missionEvents_policy failingStore offlineState) eq_refl)
    as (st' & Hret & Hev & Herr & _).
  exists st'. now repeat split.
Defined.

(** C7 as stated fails for a fetch that fails after its run of the effect
    was cleaned up: the poll of run 0 is answered with an error once run 1
    is the live one, and the events shown stay. *)
Lemma stale_failure_keeps_events :
  exists k,
    tickMissionEvents "w" 0 firstRunState =
      Call (setEventsError "" firstRunState) (SelectEvents "w" 100) k /\
    alive 0 demoState = false /\
    k (Err demoError) demoState = Ret demoState /\
    events demoState = [demoEvent] /\
    events demoState <> [] /\
    eventsError demoState = "".
Proof.
  eexists. split; [reflexivity|]. simpl. now repeat split.
Qed.

(** * Further properties of the component *)

(** ** The feed *)

Lemma append_nonempty_l (a b : string) : a <> "" -> a +:+ b <> "".
Proof. destruct a as [|c a]; [congruence|]. intros _. discriminate. Qed.

Lemma append_nonempty_r (a b : string) : b <> "" -> a +:+ b <> "".
Proof. destruct a as [|c a]; [exact id|]. intros _. discriminate. Qed.

Lemma categoryName_inj (c1 c2 : Category) :
  categoryName c1 = categoryName c2 -> c1 = c2.
Proof. destruct c1, c2; simpl; intros E; first [reflexivity | discriminate E]. Qed.

Section FeedView.

Context {Raw : Type}.

Implicit Types (ev : TranscriptEvent Raw) (events : list (TranscriptEvent Raw)).

Lemma countOf_total events :
  (countOf tools events + countOf messages events + countOf decisions events +
   countOf docs events + countOf status events + countOf other events)%nat =
  length events.
Proof.
  induction events as [|ev events IH]; [reflexivity|].
  rewrite !countOf_cons. simpl length. rewrite <- IH.
  destruct (classifyEvent ev); simpl; lia.
Qed.

(** X1. The five category counters and the events of no category add up to
    the [all] counter: no event is counted twice and only the events
    classified [other] are counted by no category. *)
Theorem feedCounts_partition events :
  (Counts.tools (feedCounts events) + Counts.messages (feedCounts events) +
   Counts.decisions (feedCounts events) + Counts.docs (feedCounts events) +
   Counts.status (feedCounts events) + countOf other events)%nat =
  Counts.all (feedCounts events).
Proof.
  unfold feedCounts. rewrite countStep_fold. simpl. apply countOf_total.
Qed.

Lemma filteredEvents_countOf (c : Category) (f : FeedFilter) events :
  categoryName c = filterName f ->
  filteredEvents f events = filteredBy c events.
Proof.
  intros E. assert (Hf : f <> f_all) by (intros ->; destruct c; discriminate E).
  unfold filteredBy.
  transitivity (List.filter
    (fun ev => String.eqb (categoryName (classifyEvent ev)) (filterName f)) events).
  { destruct f; [congruence | reflexivity..]. }
  apply List.filter_ext. intros ev. rewrite <- E.
  destruct (String.eqb_spec (categoryName (classifyEvent ev)) (categoryName c)) as [Hn|Hn].
  - apply categoryName_inj in Hn. symmetry. now apply bool_decide_eq_true.
  - symmetry. apply bool_decide_eq_false. congruence.
Qed.

(** X2. For each of the six filters the filtered view has as many events
    as the counter on the button of that filter; the view holds events of
    the list only, and under a filter other than "all" every event of the
    view is classified as the filter names. *)
Theorem filteredEvents_matches_counter (f : FeedFilter) events :
  length (filteredEvents f events) = pillCount f (feedCounts events) /\
  (forall ev, ev ∈ filteredEvents f events ->
     ev ∈ events /\
     (f <> f_all -> categoryName (classifyEvent ev) = filterName f)).
Proof.
  split.
  - unfold feedCounts. rewrite countStep_fold.
    destruct f; simpl pillCount; [reflexivity|..].
    + now rewrite (filteredEvents_countOf tools).
    + now rewrite (filteredEvents_countOf messages).
    + now rewrite (filteredEvents_countOf decisions).
    + now rewrite (filteredEvents_countOf docs).
    + now rewrite (filteredEvents_countOf status).
  - intros ev Hin. destruct f; simpl in Hin;
      try (apply list_elem_of_In, filter_In in Hin as [Hin Hc];
           apply String.eqb_eq in Hc; split; [now apply list_elem_of_In | now intros _]).
    split; [exact Hin | congruence].
Qed.

Lemma replaceAll_nonempty (s : string) (a b : ascii) :
  s <> "" -> replaceAll s a b <> "".
Proof. destruct s; [congruence | discriminate]. Qed.

Lemma isStatusKind_nonempty (k : string) : isStatusKind k = true -> k <> "".
Proof. intros E ->. discriminate E. Qed.

(** X3. A feed item never has an empty title.  The title follows the
    category: an event counted as a message is titled "Message", a decision
    "Decision", a doc "Doc"; an event counted under tools is titled "Tool",
    or "Tool", a middle dot and the tool name, except that a tool event
    whose kind is "message" is titled "Message". *)
Theorem eventTitle_follows_category ev :
  eventTitle ev <> "" /\
  (classifyEvent ev = messages -> eventTitle ev = "Message") /\
  (classifyEvent ev = decisions -> eventTitle ev = "Decision") /\
  (classifyEvent ev = docs -> eventTitle ev = "Doc") /\
  (classifyEvent ev = tools ->
     (JS.toLowerCase (kind ev) = "message" /\ eventTitle ev = "Message") \/
     (JS.toLowerCase (kind ev) <> "message" /\
      eventTitle ev =
        match tool ev with
        | Some t => if JS.truthy t then "Tool " +:+ String middleDot (" " +:+ t)
                    else "Tool"
        | None => "Tool"
        end)).
Proof.
  unfold eventTitle.
  destruct (String.eqb_spec (JS.toLowerCase (kind ev)) "message") as [Hm|Hm].
  - repeat split; try discriminate.
    + intros Hc. unfold classifyEvent in Hc. rewrite Hm in Hc. simpl in Hc.
      destruct (JS.truthyOpt (tool ev)); discriminate Hc.
    + intros Hc. unfold classifyEvent in Hc. rewrite Hm in Hc. simpl in Hc.
      destruct (JS.truthyOpt (tool ev)); discriminate Hc.
    + intros _. now left.
  - case_bool_decide as Ht.
    + rewrite Ht. repeat split; try discriminate.
      * destruct (tool ev) as [t|]; [destruct (JS.truthy t)|]; discriminate.
      * intros _. right. now split.
    + unfold classifyEvent in *.
      destruct (JS.truthyOpt (tool ev) || _ || _); [congruence|].
      apply String.eqb_neq in Hm. rewrite Hm.
      destruct (JS.includes _ "decision"); [repeat split; discriminate|].
      destruct (JS.includes _ "doc"); [repeat split; discriminate|].
      destruct (isStatusKind (JS.toLowerCase (kind ev))) eqn:Hs.
      * repeat split; try discriminate.
        apply replaceAll_nonempty, isStatusKind_nonempty, Hs.
      * repeat split; try discriminate.
        destruct (JS.truthy (kind ev)) eqn:Hk; [|discriminate].
        now apply truthy_true.
Qed.

(** X4. The body of a feed item is its text whenever the text is not
    empty, and otherwise a placeholder; it is never empty. *)
Theorem eventBody_never_empty ev :
  eventBody ev <> "" /\
  (forall t, text ev = Some t -> t <> "" -> eventBody ev = t) /\
  (JS.truthyOpt (text ev) = false ->
   eventBody ev = "(message)" \/ eventBody ev = "(status update)" \/
   eventBody ev = "(raw)").
Proof.
  unfold eventBody. split; [|split].
  - destruct (text ev) as [t|]; simpl.
    + destruct (JS.truthy t) eqn:Ht; [now apply truthy_true|].
      destruct (String.eqb _ _); [discriminate|].
      destruct (isStatusKind _); discriminate.
    + destruct (String.eqb _ _); [discriminate|].
      destruct (isStatusKind _); discriminate.
  - intros t -> Ht. apply truthy_true in Ht. simpl. now rewrite Ht.
  - intros ->. destruct (String.eqb _ _); [now left|].
    destruct (isStatusKind _); tauto.
Qed.

End FeedView.

Lemma eventTitle_follows_category_witness :
  classifyEvent (mkEvent unit None "Message" None (Some "exec") tt) = tools /\
  eventTitle (mkEvent unit None "Message" None (Some "exec") tt) = "Message".
Proof.
  split; [reflexivity|].
  destruct (proj2 (proj2 (proj2 (proj2
             (eventTitle_follows_category
                (mkEvent unit None "Message" None (Some "exec") tt))))) eq_refl)
    as [[_ Ht] | [Hk _]]; [exact Ht|].
  exfalso. apply Hk. reflexivity.
Defined.

Lemma eventBody_never_empty_witness :
  eventBody (mkEvent unit None "note" (Some "hello") None tt) = "hello".
Proof.
  apply (proj1 (proj2 (eventBody_never_empty
                         (mkEvent unit None "note" (Some "hello") None tt))));
    [reflexivity | discriminate].
Defined.

(** ** Mission events, fetched and written *)

Lemma orElse_nonempty (o : option string) (d : string) : d <> "" -> JS.orElse o d <> "".
Proof.
  intros Hd. unfold JS.orElse. destruct o as [s|]; [|exact Hd].
  destruct (JS.truthy s) eqn:E; [now apply truthy_true | exact Hd].
Qed.

Section FeedRows.

Context {host : Host}.

Implicit Types (st : State) (store : Store) (row : EventRow).

Lemma fmtMissionEvent_nonempty (type : string) (p : option Payload) :
  type <> "" -> fmtMissionEvent type p <> "".
Proof.
  intros Ht. unfold fmtMissionEvent.
  destruct (String.eqb type "MISSION_CREATED"); [now apply append_nonempty_l|].
  destruct (String.eqb type "STATUS_CHANGED"); [now apply append_nonempty_l|].
  destruct p; [now apply append_nonempty_l | exact Ht].
Qed.

(** X5. Every event fetched from the store comes with a text that is not
    empty, so its body in the feed is that text and never a placeholder; it
    has no tool, and its kind is the type of the row, or "event" when the
    row has none. *)
Theorem fetched_event_has_text row :
  tool (eventOfRow row) = None /\
  kind (eventOfRow row) = JS.orElse (type_ row) "event" /\
  kind (eventOfRow row) <> "" /\
  raw (eventOfRow row) = row /\
  exists t, text (eventOfRow row) = Some t /\ t <> "" /\
            eventBody (eventOfRow row) = t.
Proof.
  assert (Hk : JS.orElse (type_ row) "event" <> "") by now apply orElse_nonempty.
  repeat split; try exact Hk.
  eexists. split; [reflexivity|].
  pose proof (fmtMissionEvent_nonempty _ (payload row) Hk) as Hne.
  split; [exact Hne|].
  unfold eventBody, eventOfRow. simpl.
  apply truthy_true in Hne. now rewrite Hne.
Qed.

Lemma moveTask_audit_type store now id stage st i ty :
  i ∈ (run store (moveTask now id stage st)).2 ->
  issuedEventType i = Some ty -> ty = "STATUS_CHANGED".
Proof.
  unfold moveTask. destruct (present (workspaceId st)) as [ws|]; simpl.
  - destruct (store _ _); simpl; rewrite ?elem_of_cons, elem_of_nil;
      intros Hin; intuition (subst; simpl in *; congruence).
  - now rewrite elem_of_nil.
Qed.

Lemma addTask_audit_type store rnd tUid now st i ty :
  i ∈ (run store (addTask rnd tUid now st)).2 ->
  issuedEventType i = Some ty -> ty = "MISSION_CREATED".
Proof.
  unfold addTask. destruct (negb _); simpl; [now rewrite elem_of_nil|].
  destruct (present (workspaceId st)) as [ws|]; simpl;
    [|now rewrite elem_of_nil].
  destruct (present (profileId st)) as [pid|]; simpl;
    [|now rewrite elem_of_nil].
  destruct (store _ _); simpl; rewrite ?elem_of_cons, elem_of_nil;
    intros Hin; intuition (subst; simpl in *; congruence).
Qed.

(** X6. The audit events the component itself writes, "STATUS_CHANGED" by
    [moveTask] and "MISSION_CREATED" by [addTask], are classified [other]
    once fetched back into the feed: they count under "all" only and are
    in no filtered view; their title is the type as written. *)
Theorem own_audit_events_are_other store rnd tUid now id stage st i ty row :
  i ∈ (run store (moveTask now id stage st)).2 \/
  i ∈ (run store (addTask rnd tUid now st)).2 ->
  issuedEventType i = Some ty ->
  type_ row = Some ty ->
  classifyEvent (eventOfRow row) = other /\
  eventTitle (eventOfRow row) = ty /\
  forall f events, f <> f_all -> eventOfRow row ∉ filteredEvents f events.
Proof.
  intros Hin Hty Hrow.
  assert (Hcases : ty = "STATUS_CHANGED" \/ ty = "MISSION_CREATED").
  { destruct Hin as [Hin|Hin];
      [left; eapply moveTask_audit_type | right; eapply addTask_audit_type]; eauto. }
  assert (Hother : classifyEvent (eventOfRow row) = other /\
                   eventTitle (eventOfRow row) = ty).
  { unfold classifyEvent, eventTitle, classifyEvent, eventOfRow. simpl.
    rewrite Hrow. destruct Hcases as [-> | ->]; split; reflexivity. }
  destruct Hother as [Hc Ht]. split; [exact Hc|]. split; [exact Ht|].
  intros f events Hf Hview.
  destruct f; [congruence|..]; simpl in Hview;
    apply list_elem_of_In, filter_In in Hview as [_ Hn];
    rewrite Hc in Hn; discriminate Hn.
Qed.

(** X7. A reply that arrives after the run of the mission-events effect
    that polled was cleaned up changes nothing, whether it carries rows or
    an error. *)
Theorem stale_poll_never_writes ws me st0 (r : Reply (list EventRow)) st1 :
  alive me st1 = false ->
  exists k,
    tickMissionEvents ws me st0 =
      Call (setEventsError "" st0) (SelectEvents ws 100) k /\
    k r st1 = Ret st1.
Proof.
  intros Hstale. unfold tickMissionEvents. eexists. split; [reflexivity|].
  simpl. rewrite Hstale. now destruct r.
Qed.

End FeedRows.

Lemma own_audit_events_are_other_witness :
  classifyEvent
    (eventOfRow (host:=textHost)
       (mkEventRow (Some "2026-01-01") (Some "STATUS_CHANGED") None)) = other.
Proof.
  refine (proj1 (own_audit_events_are_other (host:=textHost) acceptingStore
                   "0.8" 0 9 "m1" done demoState
                   (issued (host:=textHost)
                      (InsertEvent "w" "STATUS_CHANGED" "m1" (Some "u")
                         "status" "DONE"))
                   "STATUS_CHANGED"
                   (mkEventRow (Some "2026-01-01") (Some "STATUS_CHANGED") None)
                   _ eq_refl eq_refl)).
  left. vm_compute. right. left.
Defined.

Lemma stale_poll_never_writes_witness :
  alive 0 demoState = false /\
  exists k,
    tickMissionEvents "w" 0 firstRunState =
      Call (setEventsError "" firstRunState) (SelectEvents "w" 100) k /\
    k (Ok []) demoState = Ret demoState.
Proof.
  split; [reflexivity|].
  exact (stale_poll_never_writes (host:=textHost) "w" 0%nat firstRunState (Ok [])
           demoState eq_refl).
Defined.

(** ** The other paths of moveTask and addTask *)

Section HandlerPaths.

Context {host : Host}.

Implicit Types (st : State) (store : Store).

(** X8. Without a workspace [moveTask] is local: it issues no remote call
    and sets no error; the tasks with the given id get the new stage and
    the clock's time, keeping their other fields, and every other task is
    unchanged. *)
Theorem moveTask_offline store now id stage st :
  present (workspaceId st) = None ->
  (run store (moveTask now id stage st)).2 = [] /\
  dbError (run store (moveTask now id stage st)).1 = dbError st /\
  (forall i t, tasks st !! i = Some t ->
     tasks (run store (moveTask now id stage st)).1 !! i =
       Some (if String.eqb (Task.id t) id
             then Task.mk (Task.id t) (Task.title t) (Task.desc t) stage
                    (Task.tags t) (Task.assignee t) now
             else t)) /\
  length (tasks (run store (moveTask now id stage st)).1) = length (tasks st).
Proof.
  intros Hws. unfold moveTask. rewrite Hws. simpl.
  split; [reflexivity|]. split; [reflexivity|]. split.
  - intros i t Hi. now rewrite (moveTask_optimistic _ _ _ _ _ _ Hi).
  - apply length_map.
Qed.

(** X9. With a workspace, when the status update succeeds the move stays:
    the final task list is the one shown at once, whatever the store
    answers to the audit insert (its failure is not rolled back and sets
    no error); the calls are the update and then the audit event
    "STATUS_CHANGED" carrying the new status. *)
Theorem moveTask_success_keeps_move store now id stage st ws :
  present (workspaceId st) = Some ws ->
  store _ (UpdateMissionStatus id (taskStageToMissionStatus stage)) = Ok tt ->
  tasks (run store (moveTask now id stage st)).1 =
    List.map (fun t => if String.eqb (Task.id t) id
                       then restageTask stage now t else t) (tasks st) /\
  dbError (run store (moveTask now id stage st)).1 = dbError st /\
  (run store (moveTask now id stage st)).2 =
    [ issued (UpdateMissionStatus id (taskStageToMissionStatus stage));
      issued (InsertEvent ws "STATUS_CHANGED" id (profileId st) "status"
                (statusName (taskStageToMissionStatus stage))) ].
Proof.
  intros Hws Hok. unfold moveTask. rewrite Hws. simpl. rewrite Hok. simpl.
  now repeat split.
Qed.

(** X10. On every path, with any store, [moveTask] keeps the tasks in
    number, in order and in every field but stage and time: the ids,
    titles, descriptions, tags and assignees read in list order are the
    same before and after. *)
Theorem moveTask_keeps_cards store now id stage st :
  let st' := (run store (moveTask now id stage st)).1 in
  List.map Task.id (tasks st') = List.map Task.id (tasks st) /\
  List.map Task.title (tasks st') = List.map Task.title (tasks st) /\
  List.map Task.desc (tasks st') = List.map Task.desc (tasks st) /\
  List.map Task.tags (tasks st') = List.map Task.tags (tasks st) /\
  List.map Task.assignee (tasks st') = List.map Task.assignee (tasks st) /\
  length (tasks st') = length (tasks st).
Proof.
  assert (Hmap : forall {B} (f : Task.t -> B),
            (forall t, f (restageTask stage now t) = f t) ->
            List.map f (List.map (fun t => if String.eqb (Task.id t) id
                                           then restageTask stage now t else t)
                          (tasks st)) = List.map f (tasks st)).
  { intros B f Hf. rewrite List.map_map. apply List.map_ext. intros t.
    destruct (String.eqb (Task.id t) id); [apply Hf | reflexivity]. }
  assert (Hcases : tasks (run store (moveTask now id stage st)).1 = tasks st \/
                   tasks (run store (moveTask now id stage st)).1 =
                     List.map (fun t => if String.eqb (Task.id t) id
                                        then restageTask stage now t else t)
                       (tasks st)).
  { unfold moveTask. destruct (present (workspaceId st)); simpl; [|now right].
    destruct (store _ _); simpl; [now right | now left]. }
  simpl. destruct Hcases as [-> | ->]; [now repeat split|].
  rewrite !Hmap by reflexivity. rewrite length_map. now repeat split.
Qed.

(** X11. With a title that is empty once trimmed [addTask] does nothing:
    no call, no new task, no error, and the form keeps what was typed. *)
Theorem addTask_blank_title store rnd tUid now st :
  JS.trim (TaskForm.title (newTask st)) = "" ->
  addTask rnd tUid now st = Ret st /\
  run store (addTask rnd tUid now st) = (st, []).
Proof.
  intros Ht. apply truthy_false in Ht. unfold addTask. rewrite Ht. now split.
Qed.

(** X12. With workspace and profile, when the remote insert succeeds
    [addTask] puts in front of the tasks one task carrying the id, title,
    description and tags of the returned row, at stage [inbox], with the
    assignee typed in the form; it sets no error, clears the form, and
    issues the insert and then the audit event "MISSION_CREATED"; what the
    store answers to the audit insert changes nothing. *)
Theorem addTask_remote_success store rnd tUid now st ws pid data :
  let form := newTask st in
  let title := JS.trim (TaskForm.title form) in
  let insert :=
    InsertMission ws title (JS.orUndefined (JS.trim (TaskForm.desc form)))
      (parseTags (TaskForm.tags form)) INBOX pid in
  title <> "" ->
  present (workspaceId st) = Some ws ->
  present (profileId st) = Some pid ->
  store _ insert = Ok data ->
  exists t,
    tasks (run store (addTask rnd tUid now st)).1 = t :: tasks st /\
    Task.id t = MissionRow.id data /\
    Task.title t = MissionRow.title data /\
    Task.stage t = inbox /\
    Task.tags t = MissionRow.tags data /\
    Task.assignee t = JS.orUndefined (JS.trim (TaskForm.assignee form)) /\
    dbError (run store (addTask rnd tUid now st)).1 = dbError st /\
    newTask (run store (addTask rnd tUid now st)).1 = TaskForm.empty /\
    (run store (addTask rnd tUid now st)).2 =
      [ issued insert;
        issued (InsertEvent ws "MISSION_CREATED" (MissionRow.id data)
                  (profileId st) "title" title) ].
Proof.
  intros form title insert Ht Hws Hpid Hok. apply truthy_true in Ht.
  unfold addTask. fold form. fold title. rewrite Ht, Hws, Hpid. simpl.
  fold form title. fold insert. rewrite Hok. simpl.
  eexists. split; [reflexivity|]. now repeat split.
Qed.

(** X13. On every path, with any store, [addTask] with a title that is not
    empty once trimmed ends with exactly one more task: the new task is in
    front, at stage [inbox], the tasks there before follow unchanged, and
    the form is cleared. *)
Theorem addTask_adds_one store rnd tUid now st :
  JS.trim (TaskForm.title (newTask st)) <> "" ->
  exists t,
    tasks (run store (addTask rnd tUid now st)).1 = t :: tasks st /\
    Task.stage t = inbox /\
    newTask (run store (addTask rnd tUid now st)).1 = TaskForm.empty /\
    leads (run store (addTask rnd tUid now st)).1 = leads st.
Proof.
  intros Ht. apply truthy_true in Ht. unfold addTask. rewrite Ht. simpl.
  destruct (present (workspaceId st)) as [ws|]; simpl;
    [|eexists; now repeat split].
  destruct (present (profileId st)) as [pid|]; simpl;
    [|eexists; now repeat split].
  destruct (store _ _); simpl; eexists; now repeat split.
Qed.

End HandlerPaths.

Lemma moveTask_offline_witness :
  present (workspaceId offlineState) = None /\
  (run failingStore (moveTask 9 "m1" done offlineState)).2 = [] /\
  tasks (run failingStore (moveTask 9 "m1" done offlineState)).1 !! 0%nat =
    Some (Task.mk "m1" "Draft posts" None done None (Some "Forge") 9).
Proof.
  split; [reflexivity|].
  destruct (moveTask_offline (host:=textHost) failingStore 9 "m1" done
              offlineState eq_refl) as (Hc & _ & Hat & _).
  split; [exact Hc|]. exact (Hat 0%nat demoTask eq_refl).
Defined.

Lemma moveTask_success_keeps_move_witness :
  present (workspaceId demoState) = Some "w" /\
  acceptingStore _ (UpdateMissionStatus "m1" (taskStageToMissionStatus done)) = Ok tt /\
  acceptingStore _ (InsertEvent "w" "STATUS_CHANGED" "m1" (Some "u") "status" "DONE") =
    Err demoError /\
  tasks (run acceptingStore (moveTask 9 "m1" done demoState)).1 =
    [Task.mk "m1" "Draft posts" None done None (Some "Forge") 9] /\
  dbError (run acceptingStore (moveTask 9 "m1" done demoState)).1 = "".
Proof.
  split; [reflexivity|]. split; [reflexivity|]. split; [reflexivity|].
  destruct (moveTask_success_keeps_move (host:=textHost) acceptingStore 9 "m1"
              done demoState "w" eq_refl eq_refl) as (Ht & Hd & _).
  split; [exact Ht | exact Hd].
Defined.

Lemma addTask_blank_title_witness :
  JS.trim (TaskForm.title (newTask firstRunState)) = "" /\
  run failingStore (addTask "0.8" 0 0 firstRunState) = (firstRunState, []).
Proof.
  split; [reflexivity|].
  exact (proj2 (addTask_blank_title (host:=textHost) failingStore "0.8" 0 0
                  firstRunState eq_refl)).
Defined.

Lemma addTask_remote_success_witness :
  exists t,
    tasks (run acceptingStore (addTask "0.8" 0 5 demoState)).1 =
      t :: tasks demoState /\
    Task.id t = "m9" /\ Task.title t = "Call back".
Proof.
  assert (Ht : JS.trim (TaskForm.title (newTask demoState)) <> "")
    by (vm_compute; discriminate).
  destruct (addTask_remote_success (host:=textHost) acceptingStore "0.8" 0 5
              demoState "w" "u"
              (MissionRow.mk "m9" "Call back" None (Some ["sales"; "followup"])
                 INBOX (Some "2026-01-01T00:00:00Z") None)
              Ht eq_refl eq_refl eq_refl)
    as (t & Htasks & Hid & Htitle & _).
  exists t. split; [exact Htasks|]. split; [exact Hid | exact Htitle].
Defined.

Lemma addTask_adds_one_witness :
  JS.trim (TaskForm.title (newTask demoState)) <> "" /\
  exists t,
    tasks (run acceptingStore (addTask "0.8" 0 5 demoState)).1 =
      t :: tasks demoState /\
    Task.stage t = inbox.
Proof.
  assert (Ht : JS.trim (TaskForm.title (newTask demoState)) <> "")
    by (vm_compute; discriminate).
  split; [exact Ht|].
  destruct (addTask_adds_one (host:=textHost) acceptingStore "0.8" 0 5 demoState Ht)
    as (t & Htasks & Hstage & _).
  exists t. split; [exact Htasks | exact Hstage].
Defined.

(** ** Trimmed text: tags, the login form, the gate *)

Lemma chars_rev_app (s acc : string) :
  chars (String.rev_app s acc) = (rev (chars s) ++ chars acc)%list.
Proof.
  revert acc. induction s as [|c s IH]; intros acc; simpl; [reflexivity|].
  rewrite IH. simpl. now rewrite <- app_assoc.
Qed.

Lemma chars_rev (s : string) : chars (String.rev s) = rev (chars s).
Proof. unfold String.rev. rewrite chars_rev_app. simpl. apply app_nil_r. Qed.

Lemma chars_inj (a b : string) : chars a = chars b -> a = b.
Proof.
  intros E. rewrite <- (string_of_list_ascii_of_string a),
    <- (string_of_list_ascii_of_string b). unfold chars in E. now rewrite E.
Qed.

Lemma rev_rev (s : string) : String.rev (String.rev s) = s.
Proof. apply chars_inj. rewrite !chars_rev. apply rev_involutive. Qed.

Lemma startsWhite_chars (s : string) :
  startsWhite s = match chars s with [] => false | c :: _ => JS.isWhite c end.
Proof. now destruct s. Qed.

(** [trimStart] drops a run of white space and stops at a code unit that
    is not white. *)
Lemma trimStart_spec (s : string) :
  exists w, chars s = (w ++ chars (JS.trimStart s))%list /\
            Forall (fun c => JS.isWhite c = true) w /\
            startsWhite (JS.trimStart s) = false.
Proof.
  induction s as [|c s (w & Hw & Hall & Hst)]; simpl.
  - exists []. now repeat split.
  - destruct (JS.isWhite c) eqn:Hc.
    + exists (c :: w). simpl. rewrite <- Hw. now repeat split; [constructor|].
    + exists []. simpl. now repeat split.
Qed.

Lemma trimStart_fixed (s : string) : startsWhite s = false -> JS.trimStart s = s.
Proof. destruct s as [|c s]; simpl; [reflexivity|]. now intros ->. Qed.

Lemma trimStart_white (s : string) :
  Forall (fun c => JS.isWhite c = true) (chars s) -> JS.trimStart s = "".
Proof.
  induction s as [|c s IH]; simpl; [reflexivity|].
  intros Hall. apply Forall_cons in Hall as [-> Hall]. now apply IH.
Qed.

(** The trimmed text neither starts nor ends with white space. *)
Lemma trim_edges (s : string) :
  startsWhite (JS.trim s) = false /\ startsWhite (String.rev (JS.trim s)) = false.
Proof.
  unfold JS.trim.
  destruct (trimStart_spec s) as (w1 & _ & _ & Ht).
  destruct (trimStart_spec (String.rev (JS.trimStart s))) as (w2 & Hw2 & _ & Hu).
  set (t := JS.trimStart s) in *.
  set (u := JS.trimStart (String.rev t)) in *.
  split; [|now rewrite rev_rev].
  rewrite startsWhite_chars, chars_rev.
  rewrite chars_rev in Hw2. apply (f_equal (@rev ascii)) in Hw2.
  rewrite rev_involutive, rev_app_distr in Hw2.
  rewrite startsWhite_chars, Hw2 in Ht.
  destruct (rev (chars u)) as [|c l]; [reflexivity | exact Ht].
Qed.

Lemma trim_fixed (s : string) :
  startsWhite s = false -> startsWhite (String.rev s) = false -> JS.trim s = s.
Proof.
  intros H1 H2. unfold JS.trim.
  rewrite (trimStart_fixed s H1), (trimStart_fixed _ H2). apply rev_rev.
Qed.

Lemma trim_idempotent (s : string) : JS.trim (JS.trim s) = JS.trim s.
Proof. destruct (trim_edges s). now apply trim_fixed. Qed.

Lemma trimStart_chars (s : string) (c : ascii) :
  c ∈ chars (JS.trimStart s) -> c ∈ chars s.
Proof.
  destruct (trimStart_spec s) as (w & -> & _). intros Hc.
  apply elem_of_app. now right.
Qed.

Lemma elem_of_rev {A} (x : A) (l : list A) : x ∈ rev l <-> x ∈ l.
Proof. rewrite !list_elem_of_In. symmetry. apply in_rev. Qed.

Lemma trim_chars (s : string) (c : ascii) : c ∈ chars (JS.trim s) -> c ∈ chars s.
Proof.
  unfold JS.trim. rewrite chars_rev, elem_of_rev.
  intros Hc. apply trimStart_chars in Hc.
  rewrite chars_rev, elem_of_rev in Hc. now apply trimStart_chars.
Qed.

(** The trimmed text is empty exactly when every code unit is white. *)
Lemma trim_empty_iff (s : string) :
  JS.trim s = "" <-> Forall (fun c => JS.isWhite c = true) (chars s).
Proof.
  unfold JS.trim. split.
  - intros E. apply (f_equal String.rev) in E. rewrite rev_rev in E.
    change (String.rev "") with "" in E.
    destruct (trimStart_spec s) as (w1 & Hw1 & Hall1 & _).
    destruct (trimStart_spec (String.rev (JS.trimStart s))) as (w2 & Hw2 & Hall2 & _).
    rewrite E in Hw2. simpl in Hw2. rewrite app_nil_r, chars_rev in Hw2.
    rewrite Hw1. apply Forall_app. split; [exact Hall1|].
    apply Forall_forall. intros c Hc.
    rewrite Forall_forall in Hall2. apply Hall2. rewrite <- Hw2.
    now apply elem_of_rev.
  - intros Hall. now rewrite (trimStart_white s Hall).
Qed.

Lemma split_no_sep (sep : ascii) (s p : string) :
  p ∈ JS.split sep s -> sep ∉ chars p.
Proof.
  revert p. induction s as [|c s IH]; intros p; simpl.
  - intros Hp. apply list_elem_of_singleton in Hp as ->. apply not_elem_of_nil.
  - destruct (Ascii.eqb_spec c sep) as [->|Hne].
    + intros Hp. apply elem_of_cons in Hp as [->|Hp];
        [apply not_elem_of_nil | now apply IH].
    + destruct (JS.split sep s) as [|p0 ps].
      * intros Hp. apply list_elem_of_singleton in Hp as ->. simpl.
        intros Hin. apply elem_of_cons in Hin as [->|Hin]; [congruence|].
        now apply elem_of_nil in Hin.
      * intros Hp. apply elem_of_cons in Hp as [->|Hp].
        -- simpl. intros Hin. apply elem_of_cons in Hin as [->|Hin]; [congruence|].
           revert Hin. apply IH. constructor.
        -- apply IH. now constructor.
Qed.

(** X14. Every tag [addTask] reads from the tags field is clean: it is
    not empty, it is its own trimmed form (no white space at either end),
    and it holds no comma. *)
Theorem parseTags_clean (s tag : string) :
  tag ∈ parseTags s ->
  tag <> "" /\
  JS.trim tag = tag /\
  startsWhite tag = false /\ startsWhite (String.rev tag) = false /\
  ("," : ascii) ∉ chars tag.
Proof.
  unfold parseTags. intros Hin.
  apply list_elem_of_In, filter_In in Hin as [Hin Ht].
  apply in_map_iff in Hin as (p & <- & Hp).
  split; [now apply truthy_true|].
  split; [apply trim_idempotent|].
  destruct (trim_edges p) as [H1 H2]. split; [exact H1|]. split; [exact H2|].
  intros Hc. apply trim_chars in Hc. revert Hc.
  apply (split_no_sep _ s). now apply list_elem_of_In.
Qed.

Lemma parseTags_clean_witness :
  "followup" ∈ parseTags "sales, ,followup" /\
  JS.trim "followup" = "followup".
Proof.
  assert (Hin : "followup" ∈ parseTags "sales, ,followup").
  { apply list_elem_of_In. vm_compute. right. left. reflexivity. }
  split; [exact Hin|].
  exact (proj1 (proj2 (parseTags_clean "sales, ,followup" "followup" Hin))).
Defined.

(** X15. The login form can be submitted exactly when the email holds a
    code unit that is not white space and, in password mode, the password
    has at least six code units; in magic-link mode the password plays no
    part. *)
Theorem canSubmit_iff (st : Login.t) :
  Login.canSubmit st = true <->
  (exists c, c ∈ chars (Login.email st) /\ JS.isWhite c = false) /\
  (Login.mode st = Login.password -> (6 <= String.length (Login.pass st))%nat).
Proof.
  unfold Login.canSubmit.
  assert (Hemail : JS.truthy (JS.trim (Login.email st)) = true <->
                   exists c, c ∈ chars (Login.email st) /\ JS.isWhite c = false).
  { rewrite truthy_true, trim_empty_iff, <- Exists_Forall_neg
      by (intros c; destruct (JS.isWhite c); [left | right]; congruence).
    rewrite Exists_exists. split; intros (c & Hc & Hw); exists c; split;
      try exact Hc; destruct (JS.isWhite c); congruence. }
  destruct (JS.truthy (JS.trim (Login.email st))); simpl.
  - destruct (Login.mode st).
    + split; [|reflexivity]. intros _. split; [now apply Hemail | discriminate].
    + destruct (Nat.ltb_spec (String.length (Login.pass st)) 6) as [Hlt|Hge].
      * split; [discriminate|]. intros [_ Hp]. specialize (Hp eq_refl). lia.
      * split; [|reflexivity]. intros _. split; [now apply Hemail | now intros _].
  - split; [discriminate|]. intros [He _]. apply Hemail in He. discriminate He.
Qed.

Lemma isWhite_lowerChar (c : ascii) : JS.isWhite (JS.lowerChar c) = JS.isWhite c.
Proof. destruct c as [[] [] [] [] [] [] [] []]; reflexivity. Qed.

Lemma chars_toLowerCase (s : string) :
  chars (JS.toLowerCase s) = List.map JS.lowerChar (chars s).
Proof. induction s as [|c s IH]; simpl; [reflexivity | now rewrite IH]. Qed.

Lemma toLowerCase_rev (s : string) :
  JS.toLowerCase (String.rev s) = String.rev (JS.toLowerCase s).
Proof.
  apply chars_inj. rewrite chars_toLowerCase, !chars_rev, chars_toLowerCase.
  apply map_rev.
Qed.

Lemma toLowerCase_trimStart (s : string) :
  JS.toLowerCase (JS.trimStart s) = JS.trimStart (JS.toLowerCase s).
Proof.
  induction s as [|c s IH]; simpl; [reflexivity|].
  rewrite isWhite_lowerChar. now destruct (JS.isWhite c).
Qed.

(** Lower-casing and trimming commute. *)
Lemma toLowerCase_trim (s : string) :
  JS.toLowerCase (JS.trim s) = JS.trim (JS.toLowerCase s).
Proof.
  unfold JS.trim.
  now rewrite toLowerCase_rev, toLowerCase_trimStart, toLowerCase_rev,
    toLowerCase_trimStart.
Qed.

(** X16. The gate compares emails without regard to case: the action is
    the same when the configured address and the user's email are replaced
    by their lower-case forms.  A user whose email is the configured
    address up to case, and up to white space around the configured
    address, is never signed out; nobody is signed out when no address is
    configured or the configured address is blank. *)
Theorem guard_ignores_case (allowedEnv userEmail : string) (authed : bool)
  (pathname : string) :
  AuthGate.guard (Some allowedEnv) (Some userEmail) authed pathname =
    AuthGate.guard (Some (JS.toLowerCase allowedEnv))
      (Some (JS.toLowerCase userEmail)) authed pathname /\
  (JS.toLowerCase userEmail = JS.toLowerCase (JS.trim allowedEnv) ->
   AuthGate.guard (Some allowedEnv) (Some userEmail) authed pathname
     <> AuthGate.signOutToLogin) /\
  (JS.trim allowedEnv = "" ->
   AuthGate.guard (Some allowedEnv) (Some userEmail) authed pathname
     <> AuthGate.signOutToLogin) /\
  AuthGate.guard None (Some userEmail) authed pathname <> AuthGate.signOutToLogin.
Proof.
  unfold AuthGate.guard. simpl. split; [|split; [|split]].
  - now rewrite <- toLowerCase_trim, !toLowerCase_idempotent.
  - intros ->. rewrite bool_decide_eq_true_2 by reflexivity.
    rewrite andb_false_r. destruct (negb authed && _); discriminate.
  - intros ->. simpl. destruct (negb authed && _); discriminate.
  - destruct (negb authed && _); discriminate.
Qed.

Lemma guard_ignores_case_witness :
  JS.toLowerCase "Amey@Orange.in" = JS.toLowerCase (JS.trim " amey@orange.IN ") /\
  AuthGate.guard (Some " amey@orange.IN ") (Some "Amey@Orange.in") true "/"
    <> AuthGate.signOutToLogin.
Proof.
  assert (E : JS.toLowerCase "Amey@Orange.in" =
              JS.toLowerCase (JS.trim " amey@orange.IN ")) by reflexivity.
  split; [exact E|].
  exact (proj1 (proj2 (guard_ignores_case " amey@orange.IN " "Amey@Orange.in"
                         true "/")) E).
Defined.

Lemma canSubmit_iff_witness :
  Login.mode (Login.mk Login.password "a@b.c" "secret") = Login.password /\
  (6 <= String.length (Login.pass (Login.mk Login.password "a@b.c" "secret")))%nat.
Proof.
  split; [reflexivity|].
  exact (proj2 (proj1 (canSubmit_iff (Login.mk Login.password "a@b.c" "secret"))
                  eq_refl) eq_refl).
Defined.

(** ** Relative times *)

Lemma decDigits_nonempty (fuel : nat) (n : N) (acc : string) :
  acc <> "" -> decDigits fuel n acc <> "".
Proof.
  revert n acc. induction fuel as [|f IH]; intros n acc Hacc; simpl; [exact Hacc|].
  destruct (n <? 10)%N; [discriminate|]. apply IH. discriminate.
Qed.

Lemma toString10_nonempty (n : Z) : toString10 n <> "".
Proof.
  unfold toString10. cbn [decDigits].
  destruct (_ <? 10)%N; [discriminate|]. apply decDigits_nonempty. discriminate.
Qed.

(** X17. [fmtRelTime] gives the empty text only for a missing or zero
    timestamp; for every other timestamp it gives a text, so the absolute
    date that stands behind it as a fallback is never shown for a task or
    an event that has a timestamp. *)
Theorem fmtRelTime_empty_iff (now : Z) (ts : option Z) :
  fmtRelTime now ts = "" <-> ts = None \/ ts = Some 0.
Proof.
  unfold fmtRelTime. destruct ts as [t|]; [|split; [now left | reflexivity]].
  destruct (Z.eqb_spec t 0) as [->|Hne]; [split; [now right | reflexivity]|].
  split; [|intros [E|E]; congruence].
  intros E. exfalso. revert E.
  repeat (match goal with |- context [if ?b then _ else _] => destruct b end);
    apply append_nonempty_l, toString10_nonempty.
Qed.

(** X18. For a timestamp that is not zero, with [s] the whole seconds
    elapsed and never below zero: under a minute the text counts seconds;
    under an hour it counts minutes, 1 to 59; under 48 hours it counts
    hours, 1 to 47; from 48 hours on it counts days, from 2 up, so "1d ago"
    never appears; a timestamp in the future reads "0s ago". *)
Theorem fmtRelTime_buckets (now t : Z) :
  t <> 0 ->
  let s := Z.max 0 ((now - t) / 1000) in
  (s < 60 -> fmtRelTime now (Some t) = toString10 s +:+ "s ago") /\
  (60 <= s < 3600 ->
     fmtRelTime now (Some t) = toString10 (s / 60) +:+ "m ago" /\
     1 <= s / 60 <= 59) /\
  (3600 <= s < 172800 ->
     fmtRelTime now (Some t) = toString10 (s / 3600) +:+ "h ago" /\
     1 <= s / 3600 <= 47) /\
  (172800 <= s ->
     fmtRelTime now (Some t) = toString10 (s / 86400) +:+ "d ago" /\
     2 <= s / 86400) /\
  (now <= t -> fmtRelTime now (Some t) = "0s ago").
Proof.
  intros Hne s. unfold fmtRelTime. apply Z.eqb_neq in Hne. rewrite Hne. fold s.
  assert (H3600 : s / 60 / 60 = s / 3600) by (rewrite Z.div_div by lia; reflexivity).
  assert (H86400 : s / 60 / 60 / 24 = s / 86400)
    by (rewrite !Z.div_div by lia; reflexivity).
  rewrite H86400, H3600.
  split; [|split; [|split; [|split]]].
  - intros Hs. apply Z.ltb_lt in Hs. now rewrite Hs.
  - intros [Hlo Hhi].
    assert (Hm : 1 <= s / 60 <= 59)
      by (split; [apply Z.div_le_lower_bound | apply Z.lt_succ_r, Z.div_lt_upper_bound]; lia).
    destruct (Z.ltb_spec s 60); [lia|].
    destruct (Z.ltb_spec (s / 60) 60); [now split | lia].
  - intros [Hlo Hhi].
    assert (Hm : 60 <= s / 60) by (apply Z.div_le_lower_bound; lia).
    assert (Hh : 1 <= s / 3600 <= 47)
      by (split; [apply Z.div_le_lower_bound | apply Z.lt_succ_r, Z.div_lt_upper_bound]; lia).
    destruct (Z.ltb_spec s 60); [lia|].
    destruct (Z.ltb_spec (s / 60) 60); [lia|].
    destruct (Z.ltb_spec (s / 3600) 48); [now split | lia].
  - intros Hlo.
    assert (Hm : 60 <= s / 60) by (apply Z.div_le_lower_bound; lia).
    assert (Hh : 48 <= s / 3600) by (apply Z.div_le_lower_bound; lia).
    assert (Hd : 2 <= s / 86400) by (apply Z.div_le_lower_bound; lia).
    destruct (Z.ltb_spec s 60); [lia|].
    destruct (Z.ltb_spec (s / 60) 60); [lia|].
    destruct (Z.ltb_spec (s / 3600) 48); [lia | now split].
  - intros Hfut.
    assert (Hs : s = 0).
    { unfold s. apply Z.max_l. apply Z.div_le_upper_bound; lia. }
    rewrite Hs. reflexivity.
Qed.

Lemma fmtRelTime_buckets_witness :
  1699800000000 <> 0 /\
  172800 <= Z.max 0 ((1700000000000 - 1699800000000) / 1000) /\
  fmtRelTime 1700000000000 (Some 1699800000000) = "2d ago".
Proof.
  assert (Hne : 1699800000000 <> 0) by discriminate.
  assert (Hs : 172800 <= Z.max 0 ((1700000000000 - 1699800000000) / 1000))
    by (vm_compute; discriminate).
  split; [exact Hne|]. split; [exact Hs|].
  destruct (proj1 (proj2 (proj2 (proj2
             (fmtRelTime_buckets 1700000000000 1699800000000 Hne)))) Hs) as [E _].
  rewrite E. vm_compute. reflexivity.
Defined.

(** ** The board and the top bar *)

Lemma tally_zero (stages : list string) (k : string) :
  default 0%nat
    ((list_to_map ((fun k => (k, 0%nat)) <$> stages) : gmap string nat) !! k) = 0%nat.
Proof.
  induction stages as [|a l IH]; simpl; [now rewrite lookup_empty|].
  rewrite lookup_insert. case_decide; [reflexivity | exact IH].
Qed.

Lemma tally_step {A} (key : A -> string) (items : list A) (m : gmap string nat)
  (k : string) :
  default 0%nat
    (fold_left (fun m x => <[key x := (default 0%nat (m !! key x) + 1)%nat]> m)
       items m !! k) =
  (default 0%nat (m !! k) +
   length (List.filter (fun x => String.eqb (key x) k) items))%nat.
Proof.
  revert m. induction items as [|x items IH]; intros m; simpl; [lia|].
  rewrite IH. rewrite lookup_insert.
  destruct (String.eqb_spec (key x) k) as [->|Hne].
  - rewrite decide_True by reflexivity. simpl. lia.
  - rewrite decide_False by exact Hne. reflexivity.
Qed.

Lemma tally_count {A} (key : A -> string) (stages : list string) (items : list A)
  (k : string) :
  columnCount (tally key stages items) k =
  length (List.filter (fun x => String.eqb (key x) k) items).
Proof. unfold columnCount, tally. now rewrite tally_step, tally_zero. Qed.

Lemma taskStageKey_eqb (a b : TaskStage) :
  String.eqb (taskStageKey a) (taskStageKey b) = bool_decide (a = b).
Proof. destruct a, b; reflexivity. Qed.

Lemma leadStageKey_eqb (a b : LeadStage) :
  String.eqb (leadStageKey a) (leadStageKey b) = bool_decide (a = b).
Proof. destruct a, b; reflexivity. Qed.

Lemma taskColumns_total (tasks : list Task.t) :
  (length (taskColumn inbox tasks) + length (taskColumn assigned tasks) +
   length (taskColumn in_progress tasks) + length (taskColumn review tasks) +
   length (taskColumn done tasks))%nat = length tasks.
Proof.
  unfold taskColumn. induction tasks as [|t l IH]; [reflexivity|]. simpl.
  destruct (Task.stage t); simpl; lia.
Qed.

(** X19. The counters of the top bar agree with the boards: the number in
    the header of each task column and of each lead column is the number
    of cards in that column; the task columns together hold every task;
    the tasks in queue are the tasks outside the done column; the roster
    has seven agents. *)
Theorem kpi_matches_board (named : list Named) (tasks : list Task.t)
  (leads : list Lead.t) :
  let k := kpi named tasks leads in
  (forall s, columnCount (Kpi.byTask k) (taskStageKey s) =
             length (taskColumn s tasks)) /\
  (forall s, columnCount (Kpi.byLead k) (leadStageKey s) =
             length (leadColumn s leads)) /\
  (length (taskColumn inbox tasks) + length (taskColumn assigned tasks) +
   length (taskColumn in_progress tasks) + length (taskColumn review tasks) +
   length (taskColumn done tasks))%nat = length tasks /\
  (Kpi.tasksInQueue k + length (taskColumn done tasks))%nat = length tasks /\
  Kpi.leadsTotal k = length leads /\
  Kpi.activeAgents k = length named /\
  Kpi.agentCount k = 7%nat.
Proof.
  simpl. split; [|split; [|split; [|split]]].
  - intros s. rewrite tally_count. unfold taskColumn. f_equal.
    apply List.filter_ext. intros t. apply taskStageKey_eqb.
  - intros s. rewrite tally_count. unfold leadColumn. f_equal.
    apply List.filter_ext. intros l. apply leadStageKey_eqb.
  - apply taskColumns_total.
  - unfold taskColumn. induction tasks as [|t l IH]; [reflexivity|]. simpl.
    destruct (Task.stage t); simpl; lia.
  - now repeat split.
Qed.

(** ** The roster and the order of the recency fill *)

Lemma withNicknames_nickname_in_pool (sessions : list Session.t) (n : Named) :
  n ∈ withNicknames sessions ->
  session n ∈ sessions /\ nickname n ∈ AGENT_NICKNAMES.
Proof.
  intros Hn. apply withNicknamesIn_elem in Hn as [Hs ->]. split; [exact Hs|].
  now apply nicknameOf_binding;
    [apply AGENT_NICKNAMES_nonempty | apply AGENT_NICKNAMES_truthy|].
Qed.

(** X20. In the agents rail a roster row is paired with the first session
    that bears its name.  The rows "Amey" and "OV Claw" are never paired
    with a session, whatever the sessions are; a row that is paired is one
    of the five agent names and its session is one of the sessions given. *)
Theorem roster_pairing (sessions : list Session.t) :
  rosterSession "Amey" (withNicknames sessions) = None /\
  rosterSession "OV Claw" (withNicknames sessions) = None /\
  (forall name n,
     rosterSession name (withNicknames sessions) = Some n ->
     name ∈ AGENT_NICKNAMES /\ nickname n = name /\ session n ∈ sessions) /\
  length (withNicknames sessions) = length sessions.
Proof.
  assert (Hsome : forall name n,
            rosterSession name (withNicknames sessions) = Some n ->
            name ∈ AGENT_NICKNAMES /\ nickname n = name /\ session n ∈ sessions).
  { intros name n Hf. apply find_some in Hf as [Hin Heq].
    apply String.eqb_eq in Heq. apply list_elem_of_In in Hin.
    destruct (withNicknames_nickname_in_pool _ _ Hin) as [Hs Hp].
    rewrite Heq in Hp. now repeat split. }
  assert (Hnone : forall name, name ∉ AGENT_NICKNAMES ->
            rosterSession name (withNicknames sessions) = None).
  { intros name Hno.
    destruct (rosterSession name (withNicknames sessions)) as [n|] eqn:E;
      [|reflexivity].
    destruct (Hsome _ _ E) as [Hp _]. contradiction. }
  split; [|split; [|split]].
  - apply Hnone. unfold AGENT_NICKNAMES.
    rewrite !elem_of_cons, elem_of_nil. intuition discriminate.
  - apply Hnone. unfold AGENT_NICKNAMES.
    rewrite !elem_of_cons, elem_of_nil. intuition discriminate.
  - exact Hsome.
  - unfold withNicknames, withNicknamesIn. apply length_map.
Qed.

Lemma roster_pairing_witness :
  rosterSession "Orbit" (withNicknames [scenarioA; scenarioB]) =
    Some (mkNamed scenarioA "Orbit") /\
  "Orbit" ∈ AGENT_NICKNAMES.
Proof.
  assert (E : rosterSession "Orbit" (withNicknames [scenarioA; scenarioB]) =
              Some (mkNamed scenarioA "Orbit")) by (vm_compute; reflexivity).
  split; [exact E|].
  exact (proj1 (proj1 (proj2 (proj2 (roster_pairing [scenarioA; scenarioB])))
                  "Orbit" (mkNamed scenarioA "Orbit") E)).
Defined.

Section RecencyOrder.

Variable pool : list string.

Implicit Types (m : gmap string (option string)) (s : Session.t)
  (l sessions : list Session.t).

Lemma explicit_unmatched l m s :
  NoDup (List.map Session.key l) -> s ∈ l ->
  guessNicknameIn pool s = None ->
  fold_left (explicitStep pool) l m !! Session.key s = m !! Session.key s.
Proof.
  revert m. induction l as [|a l IH]; intros m Hnd Hin Hg.
  - now apply elem_of_nil in Hin.
  - simpl in Hnd. apply NoDup_cons in Hnd as [Ha Hnd].
    apply elem_of_cons in Hin as [->|Hin]; simpl.
    + rewrite explicit_other by exact Ha. unfold explicitStep. now rewrite Hg.
    + rewrite IH by assumption. apply explicitStep_other.
      intros E. apply Ha. rewrite E. apply list_elem_of_In, in_map.
      now apply list_elem_of_In.
Qed.

(** The sessions the recency loop binds get the pool names in turn, in the
    order of the loop, from the counter's start. *)
Lemma recency_fill_nth l m i0 j s :
  NoDup (List.map Session.key l) ->
  List.filter (fun s => bool_decide (m !! Session.key s = None)) l !! j = Some s ->
  (fold_left (recencyStep pool) l (m, i0)).1 !! Session.key s =
    Some (poolAt pool (i0 + j)).
Proof.
  revert m i0 j. induction l as [|a l IH]; intros m i0 j Hnd Hj; [discriminate Hj|].
  simpl in Hnd. apply NoDup_cons in Hnd as [Ha Hnd]. simpl in Hj. simpl.
  destruct (m !! Session.key a) as [v|] eqn:E.
  - rewrite bool_decide_eq_false_2 in Hj by discriminate. now apply IH.
  - rewrite bool_decide_eq_true_2 in Hj by reflexivity.
    destruct j as [|j]; simpl in Hj.
    + injection Hj as <-. rewrite Nat.add_0_r.
      apply recency_keeps, lookup_insert_eq.
    + replace (i0 + S j)%nat with (S i0 + j)%nat by lia.
      apply IH; [exact Hnd|]. rewrite <- Hj. f_equal.
      apply List.filter_ext_in. intros x Hx.
      rewrite lookup_insert_ne; [reflexivity|].
      intros Ek. apply Ha. rewrite Ek. apply list_elem_of_In. now apply in_map.
Qed.

End RecencyOrder.

(** X21. With pairwise distinct keys, the sessions that name no agent in
    their text get the agent names in turn, by recency: the session at
    place [j] (from 0) among them, most recent first, gets the name at
    place [j mod 5] of the pool, whether or not another session already
    holds that name through its text. *)
Theorem recency_fill_in_order (sessions : list Session.t) (j : nat) (s : Session.t) :
  NoDup (List.map Session.key sessions) ->
  List.filter (fun s => bool_decide (guessNickname s = None))
    (sortByRecency sessions) !! j = Some s ->
  exists p,
    AGENT_NICKNAMES !! (j mod 5)%nat = Some p /\
    mkNamed s p ∈ withNicknames sessions.
Proof.
  intros Hnd Hj.
  assert (Hs : s ∈ sessions).
  { rewrite <- (sortByRecency_perm sessions).
    apply list_elem_of_lookup_2 in Hj.
    apply list_elem_of_In, filter_In in Hj as [Hj _]. now apply list_elem_of_In. }
  assert (Hnd' : NoDup (List.map Session.key (sortByRecency sessions))).
  { eapply NoDup_Permutation_proper; [|exact Hnd].
    apply Permutation_map, sortByRecency_perm. }
  set (m1 := fold_left (explicitStep AGENT_NICKNAMES) sessions
               (∅ : gmap string (option string))).
  assert (Hfilter :
    List.filter (fun s => bool_decide (guessNickname s = None))
      (sortByRecency sessions) =
    List.filter (fun s => bool_decide (m1 !! Session.key s = None))
      (sortByRecency sessions)).
  { apply List.filter_ext_in. intros x Hx.
    assert (Hxs : x ∈ sessions)
      by (rewrite <- (sortByRecency_perm sessions); now apply list_elem_of_In).
    unfold guessNickname, m1.
    destruct (guessNicknameIn AGENT_NICKNAMES x) as [g|] eqn:Hg.
    - assert (Ht : JS.truthy g = true).
      { pose proof AGENT_NICKNAMES_truthy as Hall. rewrite Forall_forall in Hall.
        apply Hall. now apply guessNicknameIn_Some in Hg. }
      rewrite (explicit_keeps _ _ _ _ _ Hnd Hxs Hg Ht).
      rewrite !bool_decide_eq_false_2 by discriminate. reflexivity.
    - rewrite (explicit_unmatched _ _ _ _ Hnd Hxs Hg), lookup_empty.
      rewrite !bool_decide_eq_true_2 by reflexivity. reflexivity. }
  rewrite Hfilter in Hj.
  assert (Hbind : bindingIn AGENT_NICKNAMES sessions !! Session.key s =
                  Some (poolAt AGENT_NICKNAMES j))
    by exact (recency_fill_nth AGENT_NICKNAMES _ m1 0 j s Hnd' Hj).
  destruct (poolAt_member AGENT_NICKNAMES j AGENT_NICKNAMES_nonempty)
    as (p & Hp & Hpin).
  change (poolAt AGENT_NICKNAMES j) with (AGENT_NICKNAMES !! (j mod 5)%nat) in Hp.
  exists p. split; [exact Hp|].
  assert (Ht : JS.truthy p = true).
  { pose proof AGENT_NICKNAMES_truthy as Hall. rewrite Forall_forall in Hall.
    now apply Hall. }
  unfold withNicknames, withNicknamesIn.
  apply list_elem_of_In, in_map_iff. exists s. split; [|now apply list_elem_of_In].
  f_equal. unfold nicknameOf. rewrite Hbind.
  change (poolAt AGENT_NICKNAMES j) with (AGENT_NICKNAMES !! (j mod 5)%nat).
  rewrite Hp. now rewrite Ht.
Qed.

Lemma recency_fill_in_order_witness :
  NoDup (List.map Session.key [scenarioA; scenarioB]) /\
  List.filter (fun s => bool_decide (guessNickname s = None))
    (sortByRecency [scenarioA; scenarioB]) !! 0%nat = Some scenarioB /\
  exists p,
    AGENT_NICKNAMES !! (0 mod 5)%nat = Some p /\
    mkNamed scenarioB p ∈ withNicknames [scenarioA; scenarioB].
Proof.
  assert (Hnd : NoDup (List.map Session.key [scenarioA; scenarioB]))
    by (simpl; nodup_enum).
  assert (Hj : List.filter (fun s => bool_decide (guessNickname s = None))
                 (sortByRecency [scenarioA; scenarioB]) !! 0%nat = Some scenarioB)
    by (vm_compute; reflexivity).
  split; [exact Hnd|]. split; [exact Hj|].
  exact (recency_fill_in_order [scenarioA; scenarioB] 0 scenarioB Hnd Hj).
Defined.

(** ** The sessions panel *)

(** X22. Every live poll of the session list that succeeds with a list
    whose first session has a key makes that session the selected one,
    whatever was selected before, and the selected agent shown is then that
    first session; a poll that threw, was refused, or came back after the
    cleanup leaves the panel as it was. *)
Theorem sessionsPoll_selects_first (p : Panel.t) (s0 : Session.t)
  (rest : list Session.t) :
  Session.key s0 <> "" ->
  let p' := sessionsPoll true (Some (mkSessionsBody true (Some (s0 :: rest)))) p in
  Panel.selectedKey p' = Some (Session.key s0) /\
  Panel.sessions p' = Some (s0 :: rest) /\
  (exists nick, selected p' = Some (mkNamed s0 nick)) /\
  (forall live, sessionsPoll live None p = p) /\
  (forall res, sessionsPoll true (Some (mkSessionsBody false res)) p = p) /\
  (forall body, sessionsPoll false (Some body) p = p).
Proof.
  intros Hk. apply truthy_true in Hk.
  unfold sessionsPoll, sessionsTick. simpl. rewrite Hk. simpl.
  split; [reflexivity|]. split; [reflexivity|]. split; [|now repeat split].
  unfold selected, sessionsWithNames, withNicknames, withNicknamesIn. simpl.
  rewrite bool_decide_eq_true_2 by reflexivity. eauto.
Qed.

Lemma sessionsPoll_selects_first_witness :
  Session.key scenarioA <> "" /\
  Panel.selectedKey
    (sessionsPoll true (Some (mkSessionsBody true (Some [scenarioA; scenarioB])))
       (Panel.mk (Some [scenarioA; scenarioB]) (Some "b") "" "")) = Some "a".
Proof.
  assert (Hk : Session.key scenarioA <> "") by discriminate.
  split; [exact Hk|].
  exact (proj1 (sessionsPoll_selects_first
                  (Panel.mk (Some [scenarioA; scenarioB]) (Some "b") "" "")
                  scenarioA [scenarioB] Hk)).
Defined.


(** ** Loading the missions *)

Section MissionsFacts.

Context {host : Host}.

Implicit Types (st : State) (m : LoadedMission).

(** X24. When the missions query succeeds and the effect was not cleaned
    up, the tasks are replaced by the rows, one task per row in the order
    of the rows, with the ids of the rows; the stage of each task maps back
    to the status of its row, and a row holding the status [moveTask]
    writes for a stage loads at that stage.  When the query fails the tasks
    are kept and the error text is set; a successful reply that arrives
    after the cleanup changes nothing. *)
Theorem missionsLoaded_round_trip now (rows : list LoadedMission) st :
  let st' := missionsLoaded now false (Ok rows) st in
  List.map Task.id (tasks st') = List.map (fun m => MissionRow.id (mission m)) rows /\
  List.map (fun t => taskStageToMissionStatus (Task.stage t)) (tasks st') =
    List.map (fun m => MissionRow.status (mission m)) rows /\
  length (tasks st') = length rows /\
  (forall m stage,
     MissionRow.status (mission m) = taskStageToMissionStatus stage ->
     Task.stage (taskOfMission now m) = stage) /\
  (forall e, tasks (missionsLoaded now false (Err e) st) = tasks st /\
             dbError (missionsLoaded now false (Err e) st) =
               errorMessage e "Failed to load missions") /\
  missionsLoaded now true (Ok rows) st = st.
Proof.
  simpl. split; [|split; [|split; [|split]]].
  - rewrite List.map_map. reflexivity.
  - rewrite List.map_map. apply List.map_ext. intros m. simpl.
    now destruct (MissionRow.status (mission m)).
  - apply length_map.
  - intros m stage E. simpl. rewrite E. now destruct stage.
  - now repeat split.
Qed.

End MissionsFacts.

Lemma missionsLoaded_round_trip_witness :
  Task.stage
    (taskOfMission (host:=textHost) 0
       (mkLoadedMission
          (MissionRow.mk "m1" "Draft posts" None None
             (taskStageToMissionStatus review) None None) None)) = review.
Proof.
  exact (proj1 (proj2 (proj2 (proj2
           (missionsLoaded_round_trip (host:=textHost) 0 [] demoState))))
           (mkLoadedMission
              (MissionRow.mk "m1" "Draft posts" None None
                 (taskStageToMissionStatus review) None None) None)
           review eq_refl).
Defined.

(** ** Generated ids *)

Lemma hexDigit_value (d : N) :
  (d < 16)%N ->
  (let n := N_of_ascii (JS.hexDigit d) in
   if (n <? 58)%N then n - 48 else n - 87)%N = d.
Proof.
  intros Hd.
  assert (Hcases : (d = 0 \/ d = 1 \/ d = 2 \/ d = 3 \/ d = 4 \/ d = 5 \/ d = 6 \/
                    d = 7 \/ d = 8 \/ d = 9 \/ d = 10 \/ d = 11 \/ d = 12 \/
                    d = 13 \/ d = 14 \/ d = 15)%N) by lia.
  repeat (destruct Hcases as [->|Hcases]; [reflexivity|]). now subst.
Qed.

Lemma hexValue_hexDigits (fuel : nat) (n : N) (acc : string) :
  (n < 16 ^ N.of_nat fuel)%N ->
  hexValue (JS.hexDigits fuel n acc) 0 = hexValue acc n.
Proof.
  revert n acc. induction fuel as [|f IH]; intros n acc Hn.
  - simpl in *. f_equal. lia.
  - cbn [JS.hexDigits].
    assert (Hstep : hexValue (String (JS.hexDigit (n mod 16)) acc) (n / 16) =
                    hexValue acc n).
    { cbn [hexValue]. rewrite hexDigit_value by (apply N.mod_lt; lia). f_equal.
      rewrite (N.div_mod n 16) at 3 by lia. reflexivity. }
    destruct (N.ltb_spec n 16) as [Hlt|Hge].
    + rewrite <- Hstep. rewrite N.div_small by exact Hlt. reflexivity.
    + rewrite IH; [exact Hstep|].
      apply N.Div0.div_lt_upper_bound.
      rewrite Nat2N.inj_succ, N.pow_succ_r' in Hn. exact Hn.
Qed.

(** The hexadecimal text of a clock value reads back as that value. *)
Lemma hexValue_toString16 (n : Z) :
  0 <= n -> hexValue (JS.toString16 n) 0 = Z.to_N n.
Proof.
  intros Hn. unfold JS.toString16.
  destruct (Z.ltb_spec n 0) as [Hneg|_]; [lia|].
  rewrite Z.abs_eq by exact Hn. rewrite hexValue_hexDigits; [reflexivity|].
  set (m := Z.to_N n). rewrite Nat2N.inj_succ, N2Nat.id.
  destruct (N.eq_dec m 0%N) as [->|Hm]; [reflexivity|].
  apply N.lt_le_trans with (2 ^ N.succ (N.log2 m))%N.
  - apply N.log2_spec. lia.
  - apply N.pow_le_mono_l. lia.
Qed.

(** X25. Two ids generated from the same random text at two different
    clock values are different. *)
Theorem uid_distinct_clocks (rnd : string) (t1 t2 : Z) :
  0 <= t1 -> 0 <= t2 -> t1 <> t2 -> uid rnd t1 <> uid rnd t2.
Proof.
  intros H1 H2 Hne E. unfold uid in E.
  apply (inj (String.app (JS.slice 2 rnd))) in E.
  apply (f_equal (fun s => hexValue s 0)) in E.
  rewrite !hexValue_toString16 in E by assumption.
  apply Hne. apply Z2N.inj in E; assumption.
Qed.

Lemma uid_distinct_clocks_witness :
  uid "0.8" 1700000000000 <> uid "0.8" 1700000000001.
Proof.
  apply uid_distinct_clocks; [lia | lia | discriminate].
Defined.

(** ** New cards and the counters *)

Section NewCards.

Context {host : Host}.

Implicit Types (st : State) (store : Store).

Lemma addTask_front store rnd tUid now st :
  JS.truthy (JS.trim (TaskForm.title (newTask st))) = true ->
  exists t,
    tasks (run store (addTask rnd tUid now st)).1 = t :: tasks st /\
    leads (run store (addTask rnd tUid now st)).1 = leads st /\
    Task.stage t = inbox.
Proof.
  intros Ht. unfold addTask. rewrite Ht. simpl.
  destruct (present (workspaceId st)) as [ws|]; simpl;
    [|eexists; now repeat split].
  destruct (present (profileId st)) as [pid|]; simpl;
    [|eexists; now repeat split].
  destruct (store _ _); simpl; eexists; now repeat split.
Qed.

Lemma addLead_front store rnd tUid now st :
  JS.truthy (JS.trim (LeadForm.name (newLead st))) = true ->
  JS.truthy (JS.trim (LeadForm.company (newLead st))) = true ->
  exists l,
    leads (run store (addLead rnd tUid now st)).1 = l :: leads st /\
    tasks (run store (addLead rnd tUid now st)).1 = tasks st /\
    Lead.stage l = lead.
Proof.
  intros Hn Hc. unfold addLead. rewrite Hn, Hc. simpl. eexists. now repeat split.
Qed.

(** X26. A new card shows in the counters at once.  After [addTask] with
    a title that is not empty once trimmed, on every path, the inbox column
    and the tasks in queue are each one higher and the other task columns
    are as before; after [addLead] with name and company not empty once
    trimmed, the lead column and the total of leads are each one higher and
    the other lead columns are as before. *)
Theorem new_card_raises_counters store rnd tUid now st (named : list Named) :
  (JS.trim (TaskForm.title (newTask st)) <> "" ->
   let st' := (run store (addTask rnd tUid now st)).1 in
   let k := kpi named (tasks st) (leads st) in
   let k' := kpi named (tasks st') (leads st') in
   Kpi.tasksInQueue k' = S (Kpi.tasksInQueue k) /\
   (forall s, columnCount (Kpi.byTask k') (taskStageKey s) =
              ((if bool_decide (s = inbox) then 1 else 0) +
               columnCount (Kpi.byTask k) (taskStageKey s))%nat) /\
   Kpi.leadsTotal k' = Kpi.leadsTotal k) /\
  (JS.trim (LeadForm.name (newLead st)) <> "" ->
   JS.trim (LeadForm.company (newLead st)) <> "" ->
   let st' := (run store (addLead rnd tUid now st)).1 in
   let k := kpi named (tasks st) (leads st) in
   let k' := kpi named (tasks st') (leads st') in
   Kpi.leadsTotal k' = S (Kpi.leadsTotal k) /\
   (forall s, columnCount (Kpi.byLead k') (leadStageKey s) =
              ((if bool_decide (s = lead) then 1 else 0) +
               columnCount (Kpi.byLead k) (leadStageKey s))%nat) /\
   Kpi.tasksInQueue k' = Kpi.tasksInQueue k).
Proof.
  split.
  - intros Ht. apply truthy_true in Ht.
    destruct (addTask_front store rnd tUid now st Ht) as (t & Htasks & Hleads & Hst).
    simpl. rewrite Htasks, Hleads. simpl. rewrite Hst. simpl.
    split; [reflexivity|]. split; [|reflexivity].
    intros s. rewrite !tally_count. simpl. rewrite Hst.
    change "inbox" with (taskStageKey inbox). rewrite taskStageKey_eqb.
    rewrite (bool_decide_ext (inbox = s) (s = inbox)) by (split; congruence).
    now destruct (bool_decide (s = inbox)).
  - intros Hn Hc. apply truthy_true in Hn, Hc.
    destruct (addLead_front store rnd tUid now st Hn Hc) as (l & Hleads & Htasks & Hst).
    simpl. rewrite Htasks, Hleads. simpl.
    split; [reflexivity|]. split; [|reflexivity].
    intros s. rewrite !tally_count. simpl. rewrite Hst.
    change "lead" with (leadStageKey lead). rewrite leadStageKey_eqb.
    rewrite (bool_decide_ext (lead = s) (s = lead)) by (split; congruence).
    now destruct (bool_decide (s = lead)).
Qed.

End NewCards.

Lemma new_card_raises_counters_witness :
  JS.trim (TaskForm.title (newTask demoState)) <> "" /\
  Kpi.tasksInQueue
    (kpi [] (tasks (run acceptingStore (addTask "0.8" 0 5 demoState)).1)
       (leads (run acceptingStore (addTask "0.8" 0 5 demoState)).1)) =
  S (Kpi.tasksInQueue (kpi [] (tasks demoState) (leads demoState))).
Proof.
  assert (Ht : JS.trim (TaskForm.title (newTask demoState)) <> "")
    by (vm_compute; discriminate).
  split; [exact Ht|].
  exact (proj1 (proj1 (new_card_raises_counters (host:=textHost) acceptingStore
                         "0.8" 0 5 demoState []) Ht)).
Defined.

(** ** Examples of the statements above *)

Lemma filteredEvents_matches_counter_witness :
  mkEvent unit None "status" None None tt ∈
    filteredEvents f_status
      [mkEvent unit None "message" None None tt;
       mkEvent unit None "status" None None tt] /\
  categoryName (classifyEvent (mkEvent unit None "status" None None tt)) =
    filterName f_status.
Proof.
  assert (Hin : mkEvent unit None "status" None None tt ∈
                filteredEvents f_status
                  [mkEvent unit None "message" None None tt;
                   mkEvent unit None "status" None None tt])
    by (vm_compute; constructor).
  split; [exact Hin|].
  apply (proj2 (filteredEvents_matches_counter f_status
                  [mkEvent unit None "message" None None tt;
                   mkEvent unit None "status" None None tt]) _ Hin).
  discriminate.
Defined.

Lemma fmtRelTime_empty_iff_witness : fmtRelTime 1700000000000 (Some 0) = "".
Proof.
  apply (proj2 (fmtRelTime_empty_iff 1700000000000 (Some 0))). now right.
Defined.
